(** * BookDNA: the preprocessing and synchronisation pipeline, verified

    A shallow embedding of the Python scripts of the BookDNA repository
    ([scripts/preprocess_data.py], [scripts/preprocess_data_optimized.py],
    [scripts/upload_embeddings_supabase_api.py]) and the properties the
    specification states about them.

    Conventions of the embedding:
    - a Python [str] is a [string]; characters are the ASCII ones, so that
      [len] is [String.length] and a slice [s[:n]] is [substring 0 n s];
    - a Python exception is a value [Raise e] of the result type [res];
      [try: ... except: ...] is [try_except];
    - a Python [float] that the scripts compute (a helpfulness ratio, a mean
      score) is the exact rational [Q] it approximates;
    - a pandas column is the list of its cells, a DataFrame the list of its
      rows. *)

From Stdlib Require Import List String Ascii Bool Arith ZArith QArith Lia.
From Stdlib Require Import Permutation Sorted.
Import ListNotations.

Local Open Scope string_scope.
Local Open Scope nat_scope.
Local Open Scope list_scope.

(** ** Python values, exceptions and built-ins *)

Module Py.

Inductive exn : Type :=
| ValueError
| TypeError
| IndexError.

Inductive res (A : Type) : Type :=
| Ok (a : A)
| Raise (e : exn).

Arguments Ok {A} a.
Arguments Raise {A} e.

Definition bind {A B : Type} (m : res A) (k : A -> res B) : res B :=
  match m with
  | Ok a => k a
  | Raise e => Raise e
  end.

(** [try: body except: handler], with a bare [except] that catches all. *)
Definition try_except {A : Type} (body handler : res A) : res A :=
  match body with
  | Ok a => Ok a
  | Raise _ => handler
  end.

Fixpoint mapM {A B : Type} (f : A -> res B) (l : list A) : res (list B) :=
  match l with
  | [] => Ok []
  | x :: l' =>
      bind (f x) (fun y => bind (mapM f l') (fun ys => Ok (y :: ys)))
  end.

(** A value that is not a list: a missing cell (NaN), a string, or any other
    object (a number, a tuple, a dict, ...), which the scripts only ever
    look at through [str()] and which is therefore carried as that text. *)
Inductive scalar : Type :=
| SNaN
| SStr (s : string)
| SObj (repr : string).

(** A value as the helpers receive it: a scalar or a list of scalars. *)
Inductive pyval : Type :=
| PScalar (x : scalar)
| PList (l : list scalar).

(** The interpreter and library behaviour the scripts rely on and that is
    not theirs: [ast.literal_eval] on a string ([None] when it raises), and
    the truth value NumPy gives an empty array (a deprecation warning and
    [False] up to NumPy 2.1, a [ValueError] since). *)
Class PyEnv : Type := {
  literal_eval : string -> option pyval;
  empty_array_truth : res bool
}.

(** [str(x)] *)
Definition str (x : scalar) : string :=
  match x with
  | SNaN => "nan"
  | SStr s => s
  | SObj r => r
  end.

(** [x == ''] *)
Definition eq_empty (v : pyval) : bool :=
  match v with
  | PScalar (SStr "") => true
  | _ => false
  end.

(** [a == b] on cells: NaN is equal to nothing, not even to itself. *)
Definition scalar_eq (a b : scalar) : bool :=
  match a, b with
  | SStr s, SStr t => String.eqb s t
  | SObj s, SObj t => String.eqb s t
  | _, _ => false
  end.

(** The result of [pd.isna]: a [bool] on a scalar, an array of [bool] of
    the same length on a list. *)
Inductive isna_result : Type :=
| IsnaBool (b : bool)
| IsnaArray (a : list bool).

Definition scalar_isna (x : scalar) : bool :=
  match x with
  | SNaN => true
  | _ => false
  end.

Definition isna (v : pyval) : isna_result :=
  match v with
  | PScalar x => IsnaBool (scalar_isna x)
  | PList l => IsnaArray (map scalar_isna l)
  end.

(** [bool(r)], as [if r or ...] evaluates it: an array of two or more
    elements has no truth value. *)
Definition truth `{PyEnv} (r : isna_result) : res bool :=
  match r with
  | IsnaBool b => Ok b
  | IsnaArray [] => empty_array_truth
  | IsnaArray [b] => Ok b
  | IsnaArray (_ :: _ :: _) => Raise ValueError
  end.

(** [ast.literal_eval(x)]: only a string is parsed. *)
Definition ast_literal_eval `{PyEnv} (x : scalar) : res pyval :=
  match x with
  | SStr s =>
      match literal_eval s with
      | Some p => Ok p
      | None => Raise ValueError
      end
  | _ => Raise ValueError
  end.

(** *** Strings *)

(** [c.isspace()] on ASCII: tab, line feed, vertical tab, form feed,
    carriage return, the four separators 28-31, and space. *)
Definition isspace (c : ascii) : bool :=
  let n := nat_of_ascii c in
  ((9 <=? n) && (n <=? 13)) || ((28 <=? n) && (n <=? 32)).

Fixpoint lstrip (s : string) : string :=
  match s with
  | EmptyString => EmptyString
  | String c s' => if isspace c then lstrip s' else s
  end.

Fixpoint rstrip (s : string) : string :=
  match s with
  | EmptyString => EmptyString
  | String c s' =>
      match rstrip s' with
      | EmptyString => if isspace c then EmptyString else String c EmptyString
      | r => String c r
      end
  end.

(** [s.strip()] *)
Definition strip (s : string) : string := rstrip (lstrip s).

(** [s.split()]: the maximal runs of non-space characters; [word] is the
    run being read. *)
Fixpoint split_from (word s : string) : list string :=
  match s with
  | EmptyString =>
      match word with
      | EmptyString => []
      | _ => [word]
      end
  | String c s' =>
      if isspace c then
        match word with
        | EmptyString => split_from EmptyString s'
        | _ => word :: split_from EmptyString s'
        end
      else split_from (word ++ String c EmptyString)%string s'
  end.

Definition split (s : string) : list string := split_from EmptyString s.

(** [sep.join(l)] on a list of strings *)
Definition join (sep : string) (l : list string) : string :=
  String.concat sep l.

(** [sep.join(l)] on a list of objects: a [TypeError] unless every element
    is a string. *)
Definition as_str (x : scalar) : res string :=
  match x with
  | SStr s => Ok s
  | _ => Raise TypeError
  end.

Definition join_values (sep : string) (l : list scalar) : res string :=
  bind (mapM as_str l) (fun ss => Ok (join sep ss)).

(** [c in s] *)
Fixpoint contains (c : ascii) (s : string) : bool :=
  match s with
  | EmptyString => false
  | String d s' => Ascii.eqb c d || contains c s'
  end.

(** [s.split(c)]: the pieces between the occurrences of [c], empty ones
    included; [piece] is the piece being read. *)
Fixpoint split_on_from (c : ascii) (piece s : string) : list string :=
  match s with
  | EmptyString => [piece]
  | String d s' =>
      if Ascii.eqb c d then piece :: split_on_from c EmptyString s'
      else split_on_from c (piece ++ String d EmptyString)%string s'
  end.

Definition split_on (c : ascii) (s : string) : list string :=
  split_on_from c EmptyString s.

(** [l[i]] for [i >= 0] *)
Definition index {A : Type} (l : list A) (i : nat) : res A :=
  match nth_error l i with
  | Some x => Ok x
  | None => Raise IndexError
  end.

(** *** [int(s)] *)

Definition digit_of (c : ascii) : option Z :=
  let n := nat_of_ascii c in
  if (48 <=? n) && (n <=? 57) then Some (Z.of_nat (n - 48)) else None.

(** The digits of an integer literal, single underscores allowed between
    two digits. [acc] is the value read so far; [after_digit] tells whether
    the previous character was a digit. *)
Fixpoint int_digits (acc : Z) (after_digit : bool) (s : string) : option Z :=
  match s with
  | EmptyString => if after_digit then Some acc else None
  | String c s' =>
      match digit_of c with
      | Some d => int_digits (10 * acc + d)%Z true s'
      | None =>
          if Ascii.eqb c "_" && after_digit then int_digits acc false s'
          else None
      end
  end.

(** [int(s)]: [None] when Python raises [ValueError]. *)
Definition int (s : string) : option Z :=
  match strip s with
  | String "-" s' => option_map Z.opp (int_digits 0 false s')
  | String "+" s' => int_digits 0 false s'
  | s' => int_digits 0 false s'
  end.

Definition int_res (s : string) : res Z :=
  match int s with
  | Some z => Ok z
  | None => Raise ValueError
  end.

End Py.

Import Py.

Notation "x <- m ;; k" := (bind m (fun x => k))
  (at level 61, m at next level, right associativity).

(** ** The tables *)

(** A row of [Books_rating.csv]: the columns the scripts read. *)
Record review : Type := {
  rv_Title : scalar;
  rv_score : Q;
  rv_helpfulness : scalar;
  rv_summary : scalar;
  rv_text : scalar
}.

(** A row of [books_data.csv]: the columns the scripts compute with. The
    columns that are only copied to the output ([image], [previewLink],
    [infoLink], [publisher], [publishedDate], [ratingsCount]) are left
    out. *)
Record book : Type := {
  bk_Title : scalar;
  bk_description : scalar;
  bk_authors : scalar;
  bk_categories : scalar
}.

(** What [aggregate_reviews] returns. *)
Record aggregate : Type := {
  review_count : nat;
  avg_score : Q;
  review_summary : string;
  top_reviews : list string
}.

(** A row of [books_df] once the derived columns are there. *)
Record book_row : Type := {
  authors_parsed : list scalar;
  categories_parsed : list scalar;
  title_clean : string;
  description_clean : string;
  row_review_count : nat;
  row_avg_score : Q;
  row_review_summary : string
}.

(** A row of [final_df], the CanonicalRecord. *)
Record final_row : Type := {
  id : nat;
  title : string;
  description : string;
  authors : list scalar;
  categories : list scalar;
  final_review_count : nat;
  avg_rating : Q;
  embedding_text : string
}.

(** [bool(s)] of a string and of a list *)
Definition nonempty (s : string) : bool :=
  match s with
  | EmptyString => false
  | String _ _ => true
  end.

Definition nonempty_list {A : Type} (l : list A) : bool :=
  match l with
  | [] => false
  | _ :: _ => true
  end.

(** [col.mean()] *)
Definition mean (l : list Q) : Q :=
  (fold_right Qplus 0 l / inject_Z (Z.of_nat (List.length l)))%Q.

(** [df.nlargest(n, key)]: the first [n] rows of the table sorted by
    decreasing [key], rows of equal key in their order in [df]
    ([keep='first']). *)
Fixpoint insert_desc {A : Type} (key : A -> Q) (x : A) (l : list A) : list A :=
  match l with
  | [] => [x]
  | y :: l' =>
      if Qle_bool (key y) (key x) then x :: l
      else y :: insert_desc key x l'
  end.

Definition sort_desc {A : Type} (key : A -> Q) (l : list A) : list A :=
  fold_right (insert_desc key) [] l.

Definition nlargest {A : Type} (n : nat) (key : A -> Q) (l : list A) : list A :=
  firstn n (sort_desc key l).

(** The rows kept by step 6 of [main], the same in both scripts. *)
Definition keep (row : book_row * string) : bool :=
  nonempty (title_clean (fst row))
  && (nonempty (description_clean (fst row))
      || nonempty (row_review_summary (fst row))).

(** Step 7 of [main], the same in both scripts: the row of [final_df]
    made of the row of [books_df] at position [i] after filtering; [id] is
    [range(len(books_df))]. *)
Definition final_of (i : nat) (r : book_row * string) : final_row :=
  {| id := i;
     title := title_clean (fst r);
     description := description_clean (fst r);
     authors := authors_parsed (fst r);
     categories := categories_parsed (fst r);
     final_review_count := row_review_count (fst r);
     avg_rating := row_avg_score (fst r);
     embedding_text := snd r |}.

Definition finalize (rows : list (book_row * string)) : list final_row :=
  map (fun ir : nat * (book_row * string) => final_of (fst ir) (snd ir))
      (combine (seq 0 (List.length rows)) rows).

(** The columns of a final row other than [id], and the same columns of a
    row of [books_df]. *)
Definition contents : Type :=
  (string * string * list scalar * list scalar * nat * Q * string)%type.

Definition final_contents (r : final_row) : contents :=
  (title r, description r, authors r, categories r, final_review_count r,
   avg_rating r, embedding_text r).

Definition row_contents (r : book_row * string) : contents :=
  (title_clean (fst r), description_clean (fst r), authors_parsed (fst r),
   categories_parsed (fst r), row_review_count (fst r), row_avg_score (fst r),
   snd r).

(** ** scripts/preprocess_data.py *)

Module preprocess_data.
Section Script.
Context `{PyEnv}.

Definition safe_parse_list (val : pyval) : res (list scalar) :=
  na <- truth (isna val) ;;
  if na || eq_empty val then Ok []
  else
    match val with
    | PList l => Ok l
    | PScalar x =>
        try_except
          (parsed <- ast_literal_eval x ;;
           match parsed with
           | PList l => Ok l
           | PScalar y => Ok [SStr (str y)]
           end)
          (Ok [SStr (str x)])
    end.

Definition clean_text (text : scalar) : string :=
  if scalar_isna text || eq_empty (PScalar text) then ""
  else
    let text := strip (str text) in
    join " " (split text).

(** The body of the first loop of [aggregate_reviews]: the value of
    [helpfulness_score] of a row, which starts at [0.0]. *)
Definition helpfulness_score (row_helpfulness : scalar) : Q :=
  let score := 0%Q in
  let help_str := str row_helpfulness in
  if contains "/" help_str then
    match
      try_except
        (let parts := split_on "/" help_str in
         p0 <- index parts 0 ;;
         helpful <- int_res p0 ;;
         p1 <- index parts 1 ;;
         total <- int_res p1 ;;
         if (total >? 0)%Z then Ok (inject_Z helpful / inject_Z total)%Q
         else Ok score)
        (Ok score)
    with
    | Ok q => q
    | Raise _ => score
    end
  else score.

(** The body of the second loop: what a top review adds to
    [review_texts]. *)
Definition review_snippets (r : review) : list string :=
  let summary := clean_text (rv_summary r) in
  let text := clean_text (rv_text r) in
  (if nonempty summary then [summary] else [])
  ++ (if nonempty text && (String.length text <? 500)
      then [substring 0 200 text] else []).

Definition no_reviews : aggregate :=
  {| review_count := 0; avg_score := 0; review_summary := "";
     top_reviews := [] |}.

Definition aggregate_reviews (reviews_df : list review) (title : scalar)
  : aggregate :=
  let book_reviews :=
    filter (fun r => scalar_eq (rv_Title r) title) reviews_df in
  if List.length book_reviews =? 0 then no_reviews
  else
    let avg := mean (map rv_score book_reviews) in
    let scored :=
      map (fun r => (r, helpfulness_score (rv_helpfulness r))) book_reviews in
    let top := nlargest 3 snd scored in
    let review_texts :=
      fold_left (fun acc rs => acc ++ review_snippets (fst rs)) top [] in
    {| review_count := List.length book_reviews;
       avg_score := avg;
       review_summary := join " " (firstn 5 review_texts);
       top_reviews := firstn 3 review_texts |}.

(** [title in reviewed_titles], where [reviewed_titles] is the set of the
    titles of [reviews_df]; the missing title is the one object [nan] and
    is found when some review has it. *)
Definition in_titles (t : scalar) (titles : list scalar) : bool :=
  existsb (fun u => scalar_eq u t || (scalar_isna u && scalar_isna t)) titles.

(** Steps 3 and 4 of [main] on one book. The script adds one column after
    the other; no column depends on another row, so the table is the
    same. *)
Definition clean_book (reviews_df : list review) (b : book) : res book_row :=
  a <- safe_parse_list (PScalar (bk_authors b)) ;;
  c <- safe_parse_list (PScalar (bk_categories b)) ;;
  let agg :=
    if nonempty_list reviews_df then
      if in_titles (bk_Title b) (map rv_Title reviews_df)
      then aggregate_reviews reviews_df (bk_Title b)
      else no_reviews
    else no_reviews in
  Ok {| authors_parsed := a;
        categories_parsed := c;
        title_clean := clean_text (bk_Title b);
        description_clean := clean_text (bk_description b);
        row_review_count := review_count agg;
        row_avg_score := avg_score agg;
        row_review_summary := review_summary agg |}.

Definition create_embedding_text (row : book_row) : res string :=
  let parts := [] in
  let parts :=
    if nonempty (title_clean row)
    then (parts ++ [title_clean row]) ++ [title_clean row] else parts in
  let parts :=
    if nonempty (description_clean row)
    then ((parts ++ [description_clean row]) ++ [description_clean row])
         ++ [description_clean row]
    else parts in
  parts <-
    (if nonempty_list (authors_parsed row)
     then a <- join_values " " (authors_parsed row) ;; Ok (parts ++ [a])
     else Ok parts) ;;
  parts <-
    (if nonempty_list (categories_parsed row)
     then c <- join_values " " (categories_parsed row) ;; Ok (parts ++ [c])
     else Ok parts) ;;
  let parts :=
    if nonempty (row_review_summary row)
    then (parts ++ [row_review_summary row]) ++ [row_review_summary row]
    else parts in
  Ok (join " " parts).

(** Steps 3 to 5: the table with its [embedding_text] column. *)
Definition assemble (books_df : list book) (reviews_df : list review)
  : res (list (book_row * string)) :=
  rows <- mapM (clean_book reviews_df) books_df ;;
  texts <- mapM create_embedding_text rows ;;
  Ok (combine rows texts).

Definition main (books_df : list book) (reviews_df : list review)
  : res (list final_row) :=
  rows <- assemble books_df reviews_df ;;
  Ok (finalize (filter keep rows)).

End Script.
End preprocess_data.

(** ** scripts/preprocess_data_optimized.py *)

Module preprocess_data_optimized.
Section Script.
Context `{PyEnv}.

Definition safe_parse_list (val : pyval) : res (list scalar) :=
  na <- truth (isna val) ;;
  if na || eq_empty val then Ok []
  else
    match val with
    | PList l => Ok l
    | PScalar x =>
        try_except
          (parsed <- ast_literal_eval x ;;
           match parsed with
           | PList l => Ok l
           | PScalar y => Ok [SStr (str y)]
           end)
          (Ok [SStr (str x)])
    end.

Definition clean_text (text : scalar) : string :=
  if scalar_isna text || eq_empty (PScalar text) then ""
  else
    let text := strip (str text) in
    join " " (split text).

Definition parse_helpfulness (help_str : scalar) : Q :=
  if scalar_isna help_str || eq_empty (PScalar help_str) then 0%Q
  else
    let help_str := str help_str in
    if contains "/" help_str then
      match
        try_except
          (let parts := split_on "/" help_str in
           p0 <- index parts 0 ;;
           helpful <- int_res p0 ;;
           p1 <- index parts 1 ;;
           total <- int_res p1 ;;
           Ok (if (total >? 0)%Z then (inject_Z helpful / inject_Z total)%Q
               else 0%Q))
          (Ok 0%Q)
      with
      | Ok q => q
      | Raise _ => 0%Q
      end
    else 0%Q.

(** A row of the table [aggregate_reviews_vectorized] returns. *)
Record grouped : Type := {
  g_Title : scalar;
  g_review_count : nat;
  g_avg_score : Q;
  g_review_summary : string
}.

(** The keys of [groupby('Title')]: the titles that are not missing, each
    once. (pandas sorts them; the merge below looks a title up and does not
    depend on their order.) *)
Fixpoint group_keys (titles : list scalar) : list scalar :=
  match titles with
  | [] => []
  | t :: l =>
      if scalar_isna t then group_keys l
      else t :: filter (fun u => negb (scalar_eq u t)) (group_keys l)
  end.

(** [x.dropna()] *)
Definition dropna (x : list scalar) : list scalar :=
  filter (fun v => negb (scalar_isna v)) x.

(** [col.max()] of a column that is not empty *)
Definition col_max (l : list Q) : Q :=
  match l with
  | [] => 0%Q
  | q :: l' => fold_left (fun m x => if Qle_bool m x then x else m) l' q
  end.

Definition aggregate_reviews_vectorized (reviews_df : list review)
  : list grouped :=
  let scored :=
    map (fun r => (r, parse_helpfulness (rv_helpfulness r))) reviews_df in
  map (fun t =>
         let group :=
           filter (fun rs : review * Q => scalar_eq (rv_Title (fst rs)) t)
                  scored in
         let x_summary := map (fun rs => rv_summary (fst rs)) group in
         let x_text := map (fun rs => rv_text (fst rs)) group in
         let count := List.length group in
         let avg := mean (map (fun rs => rv_score (fst rs)) group) in
         let max_helpfulness := col_max (map snd group) in
         let review_summaries :=
           join " " (map clean_text (firstn 3 (dropna x_summary))) in
         let review_texts :=
           join " "
             (map (fun t => substring 0 200 (clean_text t))
                  (firstn 3 (dropna x_text))) in
         (* max_helpfulness, review_summaries and review_texts are the
            columns the script drops *)
         {| g_Title := t;
            g_review_count := count;
            g_avg_score := avg;
            g_review_summary :=
              strip (review_summaries ++ " " ++ review_texts)%string |})
      (group_keys (map rv_Title reviews_df)).

(** Steps 3 and 4 of [main] on one book: the left merge on [Title] and the
    [fillna] of the books without reviews. *)
Definition clean_book (reviews_df : list review) (review_aggregated : list grouped)
  (b : book) : res book_row :=
  a <- safe_parse_list (PScalar (bk_authors b)) ;;
  c <- safe_parse_list (PScalar (bk_categories b)) ;;
  let merged :=
    if nonempty_list reviews_df then
      find (fun g => scalar_eq (g_Title g) (bk_Title b)) review_aggregated
    else None in
  Ok {| authors_parsed := a;
        categories_parsed := c;
        title_clean := clean_text (bk_Title b);
        description_clean := clean_text (bk_description b);
        row_review_count :=
          match merged with Some g => g_review_count g | None => 0 end;
        row_avg_score :=
          match merged with Some g => g_avg_score g | None => 0%Q end;
        row_review_summary :=
          match merged with Some g => g_review_summary g | None => "" end |}.

Definition create_embedding_text (row : book_row) : res string :=
  let parts := [] in
  let parts :=
    if nonempty (title_clean row)
    then parts ++ repeat (title_clean row) 2 else parts in
  let parts :=
    if nonempty (description_clean row)
    then parts ++ repeat (description_clean row) 3 else parts in
  parts <-
    (if nonempty_list (authors_parsed row)
     then a <- join_values " " (authors_parsed row) ;; Ok (parts ++ [a])
     else Ok parts) ;;
  parts <-
    (if nonempty_list (categories_parsed row)
     then c <- join_values " " (categories_parsed row) ;; Ok (parts ++ [c])
     else Ok parts) ;;
  let parts :=
    if nonempty (row_review_summary row)
    then parts ++ repeat (row_review_summary row) 2 else parts in
  Ok (join " " parts).

Definition assemble (books_df : list book) (reviews_df : list review)
  : res (list (book_row * string)) :=
  let review_aggregated :=
    if nonempty_list reviews_df then aggregate_reviews_vectorized reviews_df
    else [] in
  rows <- mapM (clean_book reviews_df review_aggregated) books_df ;;
  texts <- mapM create_embedding_text rows ;;
  Ok (combine rows texts).

Definition main (books_df : list book) (reviews_df : list review)
  : res (list final_row) :=
  rows <- assemble books_df reviews_df ;;
  Ok (finalize (filter keep rows)).

End Script.
End preprocess_data_optimized.

(** ** scripts/upload_embeddings_supabase_api.py *)

Module upload_embeddings_supabase_api.
Section Script.

(** A row of [embeddings.npy] as [tolist()] gives it. *)
Variable vector : Type.

(** A row of the remote table [books]: its primary key and the two columns
    the script names; a column can be NULL. *)
Record remote_row : Type := {
  pk : Z;
  faiss_index : option Z;
  embedding : option vector
}.

(** What can happen to one request: it is applied and answers ([Done]); it
    is applied and the answer is lost, so that the client raises ([Lost]);
    it is not applied and the client raises ([Refused]). *)
Inductive outcome : Type :=
| Done
| Lost
| Refused.

(** The remote store and the network: the table, and the outcomes of the
    requests to come (a request after the last listed one is [Done]). *)
Record world : Type := {
  table : list remote_row;
  pending : list outcome
}.

(** The counters of [main]. *)
Record counters : Type := {
  total_updated : nat;
  failed : nat
}.

Definition matches (book_id : Z) (r : remote_row) : bool :=
  match faiss_index r with
  | Some k => (k =? book_id)%Z
  | None => false
  end.

(** The effect of [update({'embedding': e}).eq('faiss_index', book_id)] on
    the table. *)
Definition set_embedding (book_id : Z) (e : vector) (t : list remote_row)
  : list remote_row :=
  map (fun r =>
         if matches book_id r
         then {| pk := pk r; faiss_index := faiss_index r;
                 embedding := Some e |}
         else r) t.

(** [supabase.table('books').update(...).eq(...).execute()] *)
Definition execute_update (book_id : Z) (e : vector) (w : world)
  : world * res unit :=
  let o := hd Done (pending w) in
  let rest := tl (pending w) in
  match o with
  | Done =>
      ({| table := set_embedding book_id e (table w); pending := rest |},
       Ok tt)
  | Lost =>
      ({| table := set_embedding book_id e (table w); pending := rest |},
       Raise ValueError)
  | Refused => ({| table := table w; pending := rest |}, Raise ValueError)
  end.

(** [embeddings[i]]: a negative index counts from the end. *)
Definition np_index {A : Type} (a : list A) (i : Z) : res A :=
  let n := Z.of_nat (List.length a) in
  if ((0 <=? i) && (i <? n))%Z then index a (Z.to_nat i)
  else if ((- n <=? i) && (i <? 0))%Z then index a (Z.to_nat (n + i))
  else Raise IndexError.

(** [for attempt in range(2)]: the attempts left are [attempts]; the last
    one is the one that counts a failure. *)
Fixpoint retry (attempts : nat) (book_id : Z) (e : vector)
  (s : world * counters) : world * counters :=
  match attempts with
  | 0 => s
  | S attempts' =>
      let (w, c) := s in
      match execute_update book_id e w with
      | (w', Ok _) =>
          (w', {| total_updated := total_updated c + 1; failed := failed c |})
      | (w', Raise _) =>
          let c' :=
            if attempts' =? 0
            then {| total_updated := total_updated c; failed := failed c + 1 |}
            else c in
          retry attempts' book_id e (w', c')
      end
  end.

(** The body of the inner loop; [row_id] is [int(row['id'])], [None] when
    it raises. *)
Definition upload_row (embeddings : list vector) (s : world * counters)
  (row_id : option Z) : world * counters :=
  match
    (book_id <- match row_id with
                | Some z => Ok z
                | None => Raise ValueError
                end ;;
     e <- np_index embeddings book_id ;;
     Ok (retry 2 book_id e s))
  with
  | Ok s' => s'
  | Raise _ =>
      (fst s, {| total_updated := total_updated (snd s);
                 failed := failed (snd s) + 1 |})
  end.

(** [range(start, stop, step)] *)
Fixpoint range_from (fuel start stop step : nat) : list nat :=
  match fuel with
  | 0 => []
  | S fuel' =>
      if start <? stop then start :: range_from fuel' (start + step) stop step
      else []
  end.

Definition range (start stop step : nat) : list nat :=
  range_from stop start stop step.

(** [df.iloc[i:j]] *)
Definition iloc {A : Type} (df : list A) (i j : nat) : list A :=
  firstn (j - i) (skipn i df).

Definition batch_size : nat := 10.

(** The two loops of [main] over the [id] column of [books_df]. *)
Definition upload (ids : list (option Z)) (embeddings : list vector)
  (s : world * counters) : world * counters :=
  fold_left
    (fun s i =>
       let batch := iloc ids i (i + batch_size) in
       fold_left (upload_row embeddings) batch s)
    (range 0 (List.length ids) batch_size) s.

Definition main (ids : list (option Z)) (embeddings : list vector)
  (w : world) : world * counters :=
  upload ids embeddings (w, {| total_updated := 0; failed := 0 |}).

(** What a run can do to a remote row, given the embeddings: it leaves the
    key columns alone, and leaves the vector column alone or sets it to the
    embedding that the row's [faiss_index] designates. *)
Definition attaches (embeddings : list vector)
  (f : remote_row -> remote_row) : Prop :=
  forall r,
    pk (f r) = pk r
    /\ faiss_index (f r) = faiss_index r
    /\ (embedding (f r) = embedding r
        \/ exists k e,
             faiss_index r = Some k
             /\ np_index embeddings k = Ok e
             /\ embedding (f r) = Some e).

End Script.

Arguments pk {vector} r.
Arguments faiss_index {vector} r.
Arguments embedding {vector} r.
Arguments table {vector} w.
Arguments pending {vector} w.

End upload_embeddings_supabase_api.

(** ** scripts/build_faiss_index.py *)

Module build_faiss_index.

(** An entry of [books_metadata.json]. *)
Record metadata_entry : Type := {
  md_faiss_index : nat;
  md_id : nat;
  md_title : string
}.

(** Step 5 of [main]: [books_df] is [books_clean.csv] read back, its rows
    labelled 0, 1, ... in file order; [iterrows] gives each row with its
    label. *)
Definition metadata (books_df : list final_row) : list metadata_entry :=
  map (fun ir : nat * final_row =>
         {| md_faiss_index := fst ir;
            md_id := id (snd ir);
            md_title := title (snd ir) |})
      (combine (seq 0 (List.length books_df)) books_df).

End build_faiss_index.

(** ** scripts/generate_embeddings.py *)

Module generate_embeddings.
Section Script.

(** A row of the matrix [model.encode] returns, and [model.encode] on a
    batch of texts. *)
Variable vector : Type.
Variable encode : list string -> list vector.

Definition batch_size : nat := 32.

(** [np.vstack(arrays)]: the rows of the arrays one after the other; it
    needs at least one array. *)
Definition vstack (arrays : list (list vector)) : res (list vector) :=
  match arrays with
  | [] => Raise ValueError
  | _ :: _ => Ok (List.concat arrays)
  end.

(** Step 4 of [main], from the column [embedding_text] to
    [embeddings_array]. *)
Definition main (embedding_texts : list string) : res (list vector) :=
  let embeddings :=
    fold_left
      (fun embeddings i =>
         let batch :=
           upload_embeddings_supabase_api.iloc embedding_texts i
             (i + batch_size) in
         embeddings ++ [encode batch])
      (upload_embeddings_supabase_api.range 0 (List.length embedding_texts)
         batch_size)
      [] in
  vstack embeddings.

End Script.
End generate_embeddings.

(** ** scripts/populate_filter_fields.py *)

Module populate_filter_fields.

Definition BEGINNER_CATEGORIES : list string :=
  [ "Children"; "Juvenile Fiction"; "Young Adult"; "Picture Books";
    "Easy Reader"; "Board Books"; "Beginning Readers" ].

Definition ADVANCED_CATEGORIES : list string :=
  [ "Philosophy"; "Science"; "Mathematics"; "Medical"; "Law";
    "Academic"; "Technical"; "Research"; "Textbooks"; "Scholarly" ].

(** The dict, in the order of its keys. *)
Definition CATEGORY_PAGE_COUNTS : list (string * Z) :=
  [ ("Children", 32); ("Picture Books", 32); ("Board Books", 24);
    ("Juvenile Fiction", 250); ("Young Adult", 350); ("Romance", 350);
    ("Mystery", 320); ("Thriller", 380); ("Science Fiction", 400);
    ("Fantasy", 450); ("Historical Fiction", 420);
    ("Literary Fiction", 350); ("Biography", 400); ("History", 450);
    ("Science", 350); ("Philosophy", 300); ("Self-Help", 280);
    ("Business", 300); ("Cooking", 250); ("Poetry", 150);
    ("Short Stories", 250) ]%Z.

Definition DEFAULT_PAGE_COUNT : Z := 320.

(** In this script a value comes from the JSON of the remote store: the
    missing value [SNaN] is [None], and [str(None)] is ["None"]. *)
Definition str (x : scalar) : string :=
  match x with
  | SNaN => "None"
  | SStr s => s
  | SObj r => r
  end.

(** [c.lower()] and [s.lower()] on ASCII *)
Definition lower_char (c : ascii) : ascii :=
  let n := nat_of_ascii c in
  if (65 <=? n) && (n <=? 90) then ascii_of_nat (n + 32) else c.

Fixpoint lower (s : string) : string :=
  match s with
  | EmptyString => EmptyString
  | String c s' => String (lower_char c) (lower s')
  end.

(** [needle in hay] on strings *)
Fixpoint contains_str (needle hay : string) : bool :=
  String.prefix needle hay
  || match hay with
     | EmptyString => false
     | String _ hay' => contains_str needle hay'
     end.

(** [\d] and [\w] on ASCII *)
Definition is_digit (c : ascii) : bool :=
  let n := nat_of_ascii c in (48 <=? n) && (n <=? 57).

Definition is_word_char (c : ascii) : bool :=
  let n := nat_of_ascii c in
  is_digit c || ((65 <=? n) && (n <=? 90)) || ((97 <=? n) && (n <=? 122))
  || (n =? 95).

(** The pattern [\b(1[89]\d{2}|20\d{2})\b] matched at the start of [s]: the
    four characters, when [before] says that a word boundary precedes
    them. *)
Definition match_year (before : bool) (s : string) : option string :=
  match s with
  | String d1 (String d2 (String d3 (String d4 rest))) =>
      let century :=
        (Ascii.eqb d1 "1" && (Ascii.eqb d2 "8" || Ascii.eqb d2 "9"))
        || (Ascii.eqb d1 "2" && Ascii.eqb d2 "0") in
      let after :=
        match rest with
        | EmptyString => true
        | String c _ => negb (is_word_char c)
        end in
      if before && century && is_digit d3 && is_digit d4 && after
      then Some (String d1 (String d2 (String d3 (String d4 EmptyString))))
      else None
  | _ => None
  end.

(** [re.search(pattern, s)]: the leftmost match; [before] tells whether
    the start of [s] is a word boundary for a word character. *)
Fixpoint search_year (before : bool) (s : string) : option string :=
  match match_year before s with
  | Some m => Some m
  | None =>
      match s with
      | EmptyString => None
      | String c s' => search_year (negb (is_word_char c)) s'
      end
  end.

Definition extract_year (published_date : scalar) : option Z :=
  match published_date with
  | SStr EmptyString => None
  | SStr s =>
      match search_year true s with
      | Some group1 =>
          match int group1 with
          | Some year =>
              if ((1800 <=? year) && (year <=? 2030))%Z then Some year
              else None
          | None => None
          end
      | None => None
      end
  | _ => None
  end.

Definition determine_reading_level (categories : pyval) : string :=
  match categories with
  | PList ((_ :: _) as l) =>
      let categories_str := lower (join " " (map str l)) in
      if existsb (fun beginner_cat =>
                    contains_str (lower beginner_cat) categories_str)
           BEGINNER_CATEGORIES
      then "beginner"
      else if existsb (fun advanced_cat =>
                         contains_str (lower advanced_cat) categories_str)
                ADVANCED_CATEGORIES
      then "advanced"
      else "intermediate"
  | _ => "intermediate"
  end.

(** The inner loop of [estimate_page_count]: the first key of the dict
    found in the category. *)
Definition page_count_of (category : string) : option Z :=
  option_map snd
    (find (fun kv : string * Z =>
             contains_str (lower (fst kv)) (lower category))
       CATEGORY_PAGE_COUNTS).

Fixpoint first_page_count (categories : list scalar) : option Z :=
  match categories with
  | [] => None
  | SStr category :: rest =>
      match page_count_of category with
      | Some page_count => Some page_count
      | None => first_page_count rest
      end
  | _ :: rest => first_page_count rest
  end.

Definition estimate_page_count (categories : pyval) : Z :=
  match categories with
  | PList ((_ :: _) as l) =>
      match first_page_count l with
      | Some page_count => page_count
      | None => DEFAULT_PAGE_COUNT
      end
  | _ => DEFAULT_PAGE_COUNT
  end.

End populate_filter_fields.

(** ** scripts/upload_embeddings_optimized.py *)

Module upload_embeddings_optimized.
Section Script.

Variable vector : Type.

Definition batch_size : nat := 50.

(** The body of the loop that prepares the records of a batch: a record is
    the pair of [faiss_index] and [embedding]; [row_id] is
    [int(row['id'])], [None] when it raises. *)
Definition prepare (embeddings : list vector)
  (s : list (Z * vector) * upload_embeddings_supabase_api.counters)
  (row_id : option Z)
  : list (Z * vector) * upload_embeddings_supabase_api.counters :=
  let (records, c) := s in
  match
    (book_id <- match row_id with
                | Some z => Ok z
                | None => Raise ValueError
                end ;;
     embedding_list <- upload_embeddings_supabase_api.np_index embeddings book_id ;;
     Ok (book_id, embedding_list))
  with
  | Ok record => (records ++ [record], c)
  | Raise _ =>
      (records,
       upload_embeddings_supabase_api.Build_counters
         (upload_embeddings_supabase_api.total_updated c)
         (upload_embeddings_supabase_api.failed c + 1))
  end.

(** [for record in records: ...update(...).eq(...).execute()], inside the
    [try]: the first request that raises ends the loop. *)
Fixpoint send (records : list (Z * vector))
  (w : upload_embeddings_supabase_api.world vector)
  : upload_embeddings_supabase_api.world vector * res unit :=
  match records with
  | [] => (w, Ok tt)
  | record :: rest =>
      match upload_embeddings_supabase_api.execute_update vector
              (fst record) (snd record) w with
      | (w', Ok _) => send rest w'
      | (w', Raise e) => (w', Raise e)
      end
  end.

(** [for retry in range(3)]: the attempts left are [attempts]; the last
    one is the one that counts the batch as failed. *)
Fixpoint retry (attempts : nat) (records : list (Z * vector))
  (s : upload_embeddings_supabase_api.world vector
       * upload_embeddings_supabase_api.counters)
  : upload_embeddings_supabase_api.world vector
    * upload_embeddings_supabase_api.counters :=
  match attempts with
  | 0 => s
  | S attempts' =>
      let (w, c) := s in
      match send records w with
      | (w', Ok _) =>
          (w',
           upload_embeddings_supabase_api.Build_counters
             (upload_embeddings_supabase_api.total_updated c
              + List.length records)
             (upload_embeddings_supabase_api.failed c))
      | (w', Raise _) =>
          let c' :=
            if attempts' =? 0
            then upload_embeddings_supabase_api.Build_counters
                   (upload_embeddings_supabase_api.total_updated c)
                   (upload_embeddings_supabase_api.failed c
                    + List.length records)
            else c in
          retry attempts' records (w', c')
      end
  end.

(** The body of the loop over the batches. *)
Definition upload_batch (embeddings : list vector)
  (s : upload_embeddings_supabase_api.world vector
       * upload_embeddings_supabase_api.counters)
  (batch : list (option Z))
  : upload_embeddings_supabase_api.world vector
    * upload_embeddings_supabase_api.counters :=
  let (w, c) := s in
  let (records, c) := fold_left (prepare embeddings) batch ([], c) in
  match records with
  | [] => (w, c)
  | _ :: _ => retry 3 records (w, c)
  end.

Definition main (ids : list (option Z)) (embeddings : list vector)
  (w : upload_embeddings_supabase_api.world vector)
  : upload_embeddings_supabase_api.world vector
    * upload_embeddings_supabase_api.counters :=
  fold_left
    (fun s i =>
       upload_batch embeddings s
         (upload_embeddings_supabase_api.iloc ids i (i + batch_size)))
    (upload_embeddings_supabase_api.range 0 (List.length ids) batch_size)
    (w, upload_embeddings_supabase_api.Build_counters 0 0).

End Script.
End upload_embeddings_optimized.

(** ** Notions the properties are stated with *)

Module Props.



Section Remote.
Variable vector : Type.

(** An [id] of [books_df] that has an embedding. *)
Definition has_embedding (embeddings : list vector) (row_id : option Z)
  : bool :=
  match row_id with
  | Some k =>
      match upload_embeddings_supabase_api.np_index embeddings k with
      | Ok _ => true
      | Raise _ => false
      end
  | None => false
  end.

Definition is_id (k : Z) (row_id : option Z) : bool :=
  match row_id with
  | Some j => (j =? k)%Z
  | None => false
  end.

(** A remote row once the vectors of the books [ids] are attached: when
    its [faiss_index] is the [id] of one of the books and has an
    embedding, its vector column holds that embedding; otherwise the row is
    as it was. *)
Definition attached (ids : list (option Z)) (embeddings : list vector)
  (r : upload_embeddings_supabase_api.remote_row vector)
  : upload_embeddings_supabase_api.remote_row vector :=
  match upload_embeddings_supabase_api.faiss_index r with
  | Some k =>
      if existsb (is_id k) ids then
        match upload_embeddings_supabase_api.np_index embeddings k with
        | Ok e =>
            upload_embeddings_supabase_api.Build_remote_row vector
              (upload_embeddings_supabase_api.pk r) (Some k) (Some e)
        | Raise _ => r
        end
      else r
  | None => r
  end.

End Remote.

(** The four decimal digits of a year. *)
Definition digit_char (n : Z) : ascii := ascii_of_nat (48 + Z.to_nat n).

Definition year_text (y : Z) : string :=
  String (digit_char (y / 1000))
    (String (digit_char ((y / 100) mod 10))
       (String (digit_char ((y / 10) mod 10))
          (String (digit_char (y mod 10)) EmptyString))).

End Props.

(** ** The specification's words *)

Module Spec.

(** The two sides of a helpfulness string ["x/y"], and what the
    specification calls a malformed one: no ["/"], a side that is not a
    number, or a total of 0. *)
Definition numerator (s : string) : string := nth 0 (split_on "/" s) "".

Definition denominator (s : string) : string := nth 1 (split_on "/" s) "".

Definition malformed (s : string) : Prop :=
  contains "/" s = false
  \/ int (numerator s) = None
  \/ int (denominator s) = None
  \/ int (denominator s) = Some 0%Z.

(** A field repeated [n] times, and no part at all when it is empty. *)
Definition weighted (n : nat) (field : string) : list string :=
  if String.eqb field "" then [] else repeat field n.

(** The names of a list field joined, and no part at all when the list is
    empty. *)
Definition joined (field : list string) : list string :=
  match field with
  | [] => []
  | _ :: _ => [join " " field]
  end.

(** Section 4.2: title x2, description x3, authors joined, categories
    joined, review_summary x2, space-joined. *)
Definition embedding_text_of (title description : string)
  (authors categories : list string) (review_summary : string) : string :=
  join " "
    (weighted 2 title ++ weighted 3 description ++ joined authors
     ++ joined categories ++ weighted 2 review_summary).

(** Section 4.1, filtering policy: a record is dropped when its cleaned
    title is empty, or when its description and its review_summary are
    both empty. *)
Definition dropped (title description review_summary : string) : bool :=
  String.eqb title ""
  || (String.eqb description "" && String.eqb review_summary "").

(** Section 4.1, [aggregate_reviews]. The helpfulness of a review is its
    ratio, 0.0 if malformed. *)
Definition helpfulness (r : review) : Q :=
  preprocess_data.helpfulness_score (rv_helpfulness r).

(** [sorted] is [l] by decreasing helpfulness, ties in original order: a
    rearrangement of [l], in decreasing order, in which the reviews of any
    one helpfulness [q] come in the order they have in [l]. *)
Definition stable_descending (l sorted : list review) : Prop :=
  Permutation sorted l
  /\ StronglySorted (fun a b => (helpfulness b <= helpfulness a)%Q) sorted
  /\ forall q : Q,
       filter (fun r => Qeq_bool (helpfulness r) q) sorted
       = filter (fun r => Qeq_bool (helpfulness r) q) l.

(** What a selected review contributes, in the words of the claim: its
    cleaned summary and, only if its cleaned text is under 500
    characters, the first 200 characters of that text. *)
Definition contributes_as_claimed (r : review) : list string :=
  let summary := preprocess_data.clean_text (rv_summary r) in
  let text := preprocess_data.clean_text (rv_text r) in
  [summary]
  ++ (if String.length text <? 500 then [substring 0 200 text] else []).

(** The same, an empty summary and an empty text contributing nothing. *)
Definition contributes (r : review) : list string :=
  let summary := preprocess_data.clean_text (rv_summary r) in
  let text := preprocess_data.clean_text (rv_text r) in
  (if String.eqb summary "" then [] else [summary])
  ++ (if negb (String.eqb text "") && (String.length text <? 500)
      then [substring 0 200 text] else []).

(** [agg] is the aggregate of the reviews [book_reviews] of a title, a
    selected review contributing [contribution]. *)
Definition aggregates (contribution : review -> list string)
  (book_reviews : list review) (agg : aggregate) : Prop :=
  match book_reviews with
  | [] =>
      agg = {| review_count := 0; avg_score := 0; review_summary := "";
               top_reviews := [] |}
  | _ :: _ =>
      review_count agg = List.length book_reviews
      /\ (avg_score agg
          == fold_right Qplus 0 (map rv_score book_reviews)
             / inject_Z (Z.of_nat (List.length book_reviews)))%Q
      /\ exists sorted,
           stable_descending book_reviews sorted
           /\ review_summary agg
              = join " " (firstn 5 (flat_map contribution (firstn 3 sorted)))
  end.

End Spec.

(** ** Concrete inputs *)

(** An interpreter in which [ast.literal_eval] knows one list literal and
    an empty array is false. *)
#[local] Instance demo_env : PyEnv := {|
  literal_eval := fun s =>
    if String.eqb s "['Frank Herbert']" then Some (PList [SStr "Frank Herbert"])
    else None;
  empty_array_truth := Ok false
|}.

Definition mk_review (t : string) (score : Q) (h s x : scalar) : review :=
  {| rv_Title := SStr t; rv_score := score; rv_helpfulness := h;
     rv_summary := s; rv_text := x |}.

Definition mk_book (t d : string) (a : scalar) : book :=
  {| bk_Title := SStr t; bk_description := SStr d; bk_authors := a;
     bk_categories := SNaN |}.

(** The example scenario of section 8 of the specification. *)
Definition scenario_books : list book :=
  [ mk_book "Dune" "" (SStr "['Frank Herbert']");
    mk_book "" "desc" SNaN;
    mk_book "Foo" "" SNaN ].

Definition scenario_reviews : list review :=
  [ mk_review "Foo" 5 (SStr "10/10") (SStr "Great") SNaN ].

(** Two reviews of one book, equally helpful. *)
Definition two_reviews : list review :=
  [ mk_review "A" 5 (SStr "1/1") (SStr "a") (SStr "b");
    mk_review "A" 4 (SStr "1/1") (SStr "c") (SStr "d") ].

Definition one_book : list book := [ mk_book "A" "" SNaN ].

(** Three reviews of one book, none with helpfulness votes, the first
    without a summary. *)
Definition three_reviews : list review :=
  [ mk_review "A" 5 SNaN SNaN (SStr "a");
    mk_review "A" 4 SNaN (SStr "b") (SStr "c");
    mk_review "A" 3 SNaN (SStr "d") (SStr "e") ].

(** The rows of the two outputs on [one_book] and [two_reviews]. *)
Definition one_book_output (text : string) : list final_row :=
  [ {| id := 0; title := "A"; description := ""; authors := [];
       categories := []; final_review_count := 2; avg_rating := 9 # 2;
       embedding_text := text |} ].

(** A remote table of three rows, two of them for the book 1 and none
    with a vector yet; two embeddings; and a network that refuses the first
    request and loses the answer of the second. *)
Definition remote_books : list (upload_embeddings_supabase_api.remote_row (list Z)) :=
  [ upload_embeddings_supabase_api.Build_remote_row _ 10 (Some 1%Z) None;
    upload_embeddings_supabase_api.Build_remote_row _ 11 (Some 0%Z) None;
    upload_embeddings_supabase_api.Build_remote_row _ 12 (Some 1%Z) None ].

Definition two_embeddings : list (list Z) := [ [3; 4]%Z; [5; 6]%Z ].

Definition bad_network : list upload_embeddings_supabase_api.outcome :=
  [ upload_embeddings_supabase_api.Refused;
    upload_embeddings_supabase_api.Lost ].

(** What the scenario leaves: "Foo" alone, with [id] 0, one review and the
    rating 5. *)
Definition scenario_output : list final_row :=
  [ {| id := 0; title := "Foo"; description := ""; authors := [];
       categories := []; final_review_count := 1; avg_rating := 5;
       embedding_text := "Foo Foo Great Great" |} ].

(** ** Results: the monad and the built-ins *)

Lemma Ok_inj {A : Type} (a b : A) : Ok a = Ok b -> a = b.
Proof. intros Hab. now injection Hab. Qed.

Lemma mapM_Forall2 {A B : Type} (f : A -> res B) (l : list A) (ys : list B) :
  mapM f l = Ok ys -> Forall2 (fun x y => f x = Ok y) l ys.
Proof.
  revert ys; induction l as [|x l IH]; intros ys Hm; simpl in Hm.
  - injection Hm as <-. constructor.
  - destruct (f x) as [y|e] eqn:Hx; simpl in Hm; [|discriminate].
    destruct (mapM f l) as [ys'|e] eqn:Hl; simpl in Hm; [|discriminate].
    injection Hm as <-. constructor; auto.
Qed.

Lemma mapM_length {A B : Type} (f : A -> res B) (l : list A) (ys : list B) :
  mapM f l = Ok ys -> List.length ys = List.length l.
Proof.
  intros Hm. apply mapM_Forall2 in Hm.
  induction Hm; simpl; congruence.
Qed.

Lemma mapM_as_str (l : list string) : mapM as_str (map SStr l) = Ok l.
Proof.
  induction l as [|s l IH]; simpl; [reflexivity|].
  rewrite IH. reflexivity.
Qed.

Lemma join_values_strings (sep : string) (l : list string) :
  join_values sep (map SStr l) = Ok (join sep l).
Proof.
  unfold join_values. rewrite mapM_as_str. reflexivity.
Qed.

Lemma index_nth {A : Type} (l : list A) (i : nat) (x d : A) :
  index l i = Ok x -> nth i l d = x.
Proof.
  unfold index. destruct (nth_error l i) as [y|] eqn:Hn; [|discriminate].
  intros Hx. injection Hx as <-. now apply nth_error_nth.
Qed.

Lemma int_res_int (s : string) (z : Z) : int_res s = Ok z -> int s = Some z.
Proof.
  unfold int_res. destruct (int s); [|discriminate].
  intros Hz. now injection Hz as <-.
Qed.

Lemma nonempty_eqb (s : string) : nonempty s = negb (String.eqb s "").
Proof. now destruct s. Qed.

Lemma nonempty_true (s : string) : nonempty s = true <-> s <> "".
Proof. destruct s; simpl; split; congruence. Qed.

(** ** [safe_parse_list] *)

(** On a cell of a table (a value that is not a list) [safe_parse_list]
    returns a list and does not raise, whatever [ast.literal_eval] does. *)
Lemma safe_parse_list_scalar `{PyEnv} (x : scalar) :
  exists l, preprocess_data.safe_parse_list (PScalar x) = Ok l.
Proof.
  unfold preprocess_data.safe_parse_list, truth, isna, bind.
  destruct (scalar_isna x || eq_empty (PScalar x)); [now eexists|].
  unfold try_except.
  destruct (ast_literal_eval x) as [[y|l]|e]; now eexists.
Qed.

(** The two scripts have the same [safe_parse_list] and [clean_text]. *)
Lemma safe_parse_list_same `{PyEnv} (val : pyval) :
  preprocess_data_optimized.safe_parse_list val
  = preprocess_data.safe_parse_list val.
Proof. reflexivity. Qed.

Lemma clean_text_same (text : scalar) :
  preprocess_data_optimized.clean_text text = preprocess_data.clean_text text.
Proof. reflexivity. Qed.

(** A list with one element that is not missing is passed through. *)
Lemma safe_parse_list_singleton `{PyEnv} (x : scalar) :
  scalar_isna x = false ->
  preprocess_data.safe_parse_list (PList [x]) = Ok [x].
Proof.
  intros Hx. unfold preprocess_data.safe_parse_list; simpl.
  rewrite Hx. reflexivity.
Qed.

(** C3, at the list [['a', 'b']]: [pd.isna] of a list is an array, the
    test [if pd.isna(val) or val == ''] asks for the truth value of an
    array of two elements, and [safe_parse_list] raises [ValueError]
    before it reaches [isinstance(val, list)], in both scripts. The claim
    says that it never raises and passes a list through unchanged. *)
Theorem safe_parse_list_raises_on_list `{PyEnv} :
  preprocess_data.safe_parse_list (PList [SStr "a"; SStr "b"])
  = Raise ValueError
  /\ preprocess_data_optimized.safe_parse_list (PList [SStr "a"; SStr "b"])
     = Raise ValueError.
Proof. split; reflexivity. Qed.

(** For the same reason a list that holds one missing value comes back
    empty. *)
Example safe_parse_list_of_one_nan `{PyEnv} :
  preprocess_data.safe_parse_list (PList [SNaN]) = Ok [].
Proof. reflexivity. Qed.

(** ** Helpfulness *)

Lemma helpfulness_same (h : scalar) :
  preprocess_data_optimized.parse_helpfulness h
  = preprocess_data.helpfulness_score h.
Proof.
  unfold preprocess_data_optimized.parse_helpfulness,
    preprocess_data.helpfulness_score.
  destruct h as [|s|r]; simpl.
  - reflexivity.
  - destruct s as [|c s]; [reflexivity|].
    cbv beta zeta. destruct (contains "/" (String c s)); [|reflexivity].
    destruct (index _ 0) as [p0|e]; simpl; [|reflexivity].
    destruct (int_res p0) as [a|e]; simpl; [|reflexivity].
    destruct (index _ 1) as [p1|e]; simpl; [|reflexivity].
    destruct (int_res p1) as [b|e]; simpl; [|reflexivity].
    now destruct (b >? 0)%Z.
  - cbv beta zeta. destruct (contains "/" r); [|reflexivity].
    destruct (index _ 0) as [p0|e]; simpl; [|reflexivity].
    destruct (int_res p0) as [a|e]; simpl; [|reflexivity].
    destruct (index _ 1) as [p1|e]; simpl; [|reflexivity].
    destruct (int_res p1) as [b|e]; simpl; [|reflexivity].
    now destruct (b >? 0)%Z.
Qed.

(** C4: a malformed helpfulness string (no ["/"], a numerator or a
    denominator that [int] rejects, or a denominator equal to 0) has the
    helpfulness score exactly [0.0], in the row-at-a-time loop of
    [aggregate_reviews] and in [parse_helpfulness] of the vectorized
    aggregation. *)
Theorem malformed_helpfulness_is_zero (s : string) :
  Spec.malformed s ->
  preprocess_data.helpfulness_score (SStr s) = 0%Q
  /\ preprocess_data_optimized.parse_helpfulness (SStr s) = 0%Q.
Proof.
  intros Hm. rewrite helpfulness_same.
  assert (Hrow : preprocess_data.helpfulness_score (SStr s) = 0%Q);
    [|now split].
  unfold preprocess_data.helpfulness_score; simpl str; cbv zeta.
  destruct (contains "/" s) eqn:Hc; [|reflexivity].
  destruct (index (split_on "/" s) 0) as [p0|e] eqn:H0; simpl; [|reflexivity].
  destruct (int_res p0) as [a|e] eqn:Ha; simpl; [|reflexivity].
  destruct (index (split_on "/" s) 1) as [p1|e] eqn:H1; simpl; [|reflexivity].
  destruct (int_res p1) as [b|e] eqn:Hb; simpl; [|reflexivity].
  apply (index_nth _ _ _ "") in H0, H1.
  apply int_res_int in Ha, Hb.
  unfold Spec.malformed, Spec.numerator, Spec.denominator in Hm.
  rewrite H0, H1, Ha, Hb in Hm.
  destruct Hm as [Hm|[Hm|[Hm|Hm]]]; try congruence.
  injection Hm as ->. reflexivity.
Qed.

(** The scenario of the specification: ["3/0"]. *)
Lemma malformed_helpfulness_is_zero_witness :
  Spec.malformed "3/0"
  /\ preprocess_data.helpfulness_score (SStr "3/0") = 0%Q
  /\ preprocess_data_optimized.parse_helpfulness (SStr "3/0") = 0%Q.
Proof.
  assert (Hm : Spec.malformed "3/0") by (do 3 right; reflexivity).
  split; [exact Hm|].
  exact (malformed_helpfulness_is_zero "3/0" Hm).
Defined.

(** A score that is not zero needs a well-formed string. *)
Example helpfulness_three_quarters :
  preprocess_data.helpfulness_score (SStr "3/4") = (3 # 4)%Q.
Proof. reflexivity. Qed.

(** ** The embedding text *)

Lemma nonempty_list_map {A B : Type} (f : A -> B) (l : list A) :
  nonempty_list (map f l) = nonempty_list l.
Proof. now destruct l. Qed.

Lemma weighted_nonempty (n : nat) (s : string) :
  Spec.weighted n s = if nonempty s then repeat s n else [].
Proof. unfold Spec.weighted. rewrite nonempty_eqb. now destruct (String.eqb s ""). Qed.

Lemma joined_nonempty (l : list string) :
  Spec.joined l = if nonempty_list l then [join " " l] else [].
Proof. now destruct l. Qed.

(** The two scripts build the same text. *)
Lemma create_embedding_text_same (row : book_row) :
  preprocess_data_optimized.create_embedding_text row
  = preprocess_data.create_embedding_text row.
Proof.
  unfold preprocess_data_optimized.create_embedding_text,
    preprocess_data.create_embedding_text.
  destruct (nonempty (title_clean row)), (nonempty (description_clean row)),
    (nonempty_list (authors_parsed row)), (nonempty_list (categories_parsed row)),
    (join_values " " (authors_parsed row)) as [ja|e],
    (join_values " " (categories_parsed row)) as [jc|e'],
    (nonempty (row_review_summary row));
    simpl; rewrite <- ?app_assoc; reflexivity.
Qed.

(** C6: for a row whose authors and categories are lists of strings,
    [create_embedding_text] of either script returns the space-join of the
    cleaned title twice, the cleaned description three times, the authors
    joined, the categories joined and the review summary twice, in that
    order, an empty field giving no part at all. *)
Theorem create_embedding_text_weights (row : book_row) (a c : list string) :
  authors_parsed row = map SStr a ->
  categories_parsed row = map SStr c ->
  preprocess_data.create_embedding_text row
  = Ok (Spec.embedding_text_of (title_clean row) (description_clean row) a c
          (row_review_summary row))
  /\ preprocess_data_optimized.create_embedding_text row
     = Ok (Spec.embedding_text_of (title_clean row) (description_clean row) a c
             (row_review_summary row)).
Proof.
  intros Ha Hc. rewrite create_embedding_text_same.
  assert (Hrow : preprocess_data.create_embedding_text row
                 = Ok (Spec.embedding_text_of (title_clean row)
                         (description_clean row) a c (row_review_summary row)));
    [|now split].
  unfold preprocess_data.create_embedding_text, Spec.embedding_text_of.
  rewrite Ha, Hc, !nonempty_list_map, !weighted_nonempty, !joined_nonempty.
  rewrite !join_values_strings.
  destruct (nonempty (title_clean row)), (nonempty (description_clean row)),
    (nonempty_list a), (nonempty_list c), (nonempty (row_review_summary row));
    reflexivity.
Qed.

Lemma create_embedding_text_weights_witness :
  let row :=
    {| authors_parsed := [SStr "Frank Herbert"];
       categories_parsed := [];
       title_clean := "Dune";
       description_clean := "";
       row_review_count := 1;
       row_avg_score := 5;
       row_review_summary := "Great" |} in
  preprocess_data.create_embedding_text row
  = Ok "Dune Dune Frank Herbert Great Great"
  /\ preprocess_data_optimized.create_embedding_text row
     = Ok "Dune Dune Frank Herbert Great Great".
Proof.
  intro row.
  exact (create_embedding_text_weights row ["Frank Herbert"] []
           eq_refl eq_refl).
Defined.

(** ** Filtering and re-enumeration *)

Lemma main_assemble `{PyEnv} (books_df : list book) (reviews_df : list review)
  (out : list final_row) :
  preprocess_data.main books_df reviews_df = Ok out ->
  exists rows,
    preprocess_data.assemble books_df reviews_df = Ok rows
    /\ out = finalize (filter keep rows).
Proof.
  unfold preprocess_data.main.
  destruct (preprocess_data.assemble books_df reviews_df) as [rows|e];
    simpl; [|discriminate].
  intros Ho. injection Ho as Ho. exists rows.
  split; [reflexivity|symmetry; exact Ho].
Qed.

Lemma assemble_columns `{PyEnv} (books_df : list book)
  (reviews_df : list review) (rows : list (book_row * string)) :
  preprocess_data.assemble books_df reviews_df = Ok rows ->
  exists cleaned texts,
    mapM (preprocess_data.clean_book reviews_df) books_df = Ok cleaned
    /\ mapM preprocess_data.create_embedding_text cleaned = Ok texts
    /\ rows = combine cleaned texts.
Proof.
  unfold preprocess_data.assemble.
  destruct (mapM _ books_df) as [cleaned|e]; simpl; [|discriminate].
  destruct (mapM _ cleaned) as [texts|e] eqn:Ht; simpl; [|discriminate].
  intros Hr. injection Hr as Hr. exists cleaned, texts.
  split; [reflexivity|split; [exact Ht|symmetry; exact Hr]].
Qed.

Lemma enumerate_ids {A : Type} (f : nat -> A -> final_row) (l : list A) :
  (forall i x, id (f i x) = i) ->
  forall start,
    map id (map (fun ix : nat * A => f (fst ix) (snd ix))
              (combine (seq start (List.length l)) l))
    = seq start (List.length l).
Proof.
  intros Hf. induction l as [|x l IH]; intros start; simpl; [reflexivity|].
  now rewrite Hf, IH.
Qed.

Lemma enumerate_contents {A : Type} (f : nat -> A -> final_row)
  (g : A -> contents) (l : list A) :
  (forall i x, final_contents (f i x) = g x) ->
  forall start,
    map final_contents (map (fun ix : nat * A => f (fst ix) (snd ix))
                          (combine (seq start (List.length l)) l))
    = map g l.
Proof.
  intros Hf. induction l as [|x l IH]; intros start; simpl; [reflexivity|].
  now rewrite Hf, IH.
Qed.

Lemma finalize_ids (rows : list (book_row * string)) :
  map id (finalize rows) = seq 0 (List.length rows).
Proof. apply (enumerate_ids final_of). reflexivity. Qed.

Lemma finalize_contents (rows : list (book_row * string)) :
  map final_contents (finalize rows) = map row_contents rows.
Proof. apply (enumerate_contents final_of). reflexivity. Qed.

Lemma finalize_length (rows : list (book_row * string)) :
  List.length (finalize rows) = List.length rows.
Proof.
  rewrite <- (length_map id), finalize_ids. apply length_seq.
Qed.

(** The filter of step 6 keeps what the specification does not drop. *)
Lemma keep_not_dropped (r : book_row * string) :
  keep r
  = negb (Spec.dropped (title_clean (fst r)) (description_clean (fst r))
            (row_review_summary (fst r))).
Proof.
  unfold keep, Spec.dropped. rewrite !nonempty_eqb.
  now destruct (String.eqb _ ""), (String.eqb _ ""), (String.eqb _ "").
Qed.

(** A title that no review has gets the empty aggregate from
    [aggregate_reviews] itself: the test [title in reviewed_titles] of
    [main] only saves the scan. *)
Lemma aggregate_reviews_unreviewed (reviews_df : list review) (t : scalar) :
  preprocess_data.in_titles t (map rv_Title reviews_df) = false ->
  preprocess_data.aggregate_reviews reviews_df t = preprocess_data.no_reviews.
Proof.
  intros Hin. unfold preprocess_data.aggregate_reviews.
  replace (filter _ reviews_df) with (@nil review); [reflexivity|].
  symmetry. induction reviews_df as [|r l IH]; [reflexivity|].
  simpl in Hin |- *. apply orb_false_iff in Hin as [Hr Hl].
  apply orb_false_iff in Hr as [Hr _]. rewrite Hr. now apply IH.
Qed.

Lemma clean_book_columns `{PyEnv} (reviews_df : list review) (b : book)
  (row : book_row) :
  preprocess_data.clean_book reviews_df b = Ok row ->
  title_clean row = preprocess_data.clean_text (bk_Title b)
  /\ description_clean row = preprocess_data.clean_text (bk_description b)
  /\ row_review_summary row
     = review_summary (preprocess_data.aggregate_reviews reviews_df (bk_Title b)).
Proof.
  unfold preprocess_data.clean_book.
  destruct (preprocess_data.safe_parse_list (PScalar (bk_authors b)));
    simpl; [|discriminate].
  destruct (preprocess_data.safe_parse_list (PScalar (bk_categories b)));
    simpl; [|discriminate].
  intros Hr. injection Hr as Hr. subst row. simpl.
  split; [reflexivity|split; [reflexivity|]].
  destruct reviews_df as [|r l]; [reflexivity|].
  cbv [nonempty_list].
  destruct (preprocess_data.in_titles _ _) eqn:Hin; [reflexivity|].
  now rewrite aggregate_reviews_unreviewed.
Qed.

(** Every cell of a table parses: steps 3 and 4 do not raise. *)
Lemma clean_book_total `{PyEnv} (reviews_df : list review) (b : book) :
  exists row, preprocess_data.clean_book reviews_df b = Ok row.
Proof.
  unfold preprocess_data.clean_book.
  destruct (safe_parse_list_scalar (bk_authors b)) as [a ->].
  destruct (safe_parse_list_scalar (bk_categories b)) as [c ->].
  simpl. now eexists.
Qed.

Lemma Forall2_combine_fst {A B C : Type} (R : A -> B -> Prop) (l : list A)
  (xs : list B) (ys : list C) :
  Forall2 R l xs -> List.length ys = List.length xs ->
  Forall2 (fun a p => R a (fst p)) l (combine xs ys).
Proof.
  intros HR. revert ys. induction HR as [|a x l xs Ha _ IH]; intros ys Hlen.
  - constructor.
  - destruct ys as [|y ys]; [discriminate|]. simpl.
    constructor; [exact Ha|]. apply IH. simpl in Hlen. lia.
Qed.

(** C2: when [main] of [preprocess_data.py] returns, the table it computed
    has one row per book, carrying the cleaned title and description of
    the book and the review summary of its title; the output holds exactly
    the rows of that table that the filtering policy does not drop (cleaned
    title not empty, and cleaned description or review summary not empty),
    in their order in the table, and their [id]s are 0, 1, ..., n-1. *)
Theorem main_filters_and_renumbers `{PyEnv} (books_df : list book)
  (reviews_df : list review) (out : list final_row) :
  preprocess_data.main books_df reviews_df = Ok out ->
  exists rows,
    preprocess_data.assemble books_df reviews_df = Ok rows
    /\ Forall2
         (fun b r =>
            title_clean (fst r) = preprocess_data.clean_text (bk_Title b)
            /\ description_clean (fst r)
               = preprocess_data.clean_text (bk_description b)
            /\ row_review_summary (fst r)
               = review_summary
                   (preprocess_data.aggregate_reviews reviews_df (bk_Title b)))
         books_df rows
    /\ map final_contents out
       = map row_contents
           (filter
              (fun r =>
                 negb (Spec.dropped (title_clean (fst r))
                         (description_clean (fst r))
                         (row_review_summary (fst r))))
              rows)
    /\ map id out = seq 0 (List.length out).
Proof.
  intros Hmain.
  destruct (main_assemble _ _ _ Hmain) as (rows & Hrows & ->).
  exists rows. split; [exact Hrows|].
  destruct (assemble_columns _ _ _ Hrows) as (cleaned & texts & Hc & Ht & ->).
  split; [|split].
  - apply (Forall2_combine_fst
             (fun b row =>
                title_clean row = preprocess_data.clean_text (bk_Title b)
                /\ description_clean row
                   = preprocess_data.clean_text (bk_description b)
                /\ row_review_summary row
                   = review_summary
                       (preprocess_data.aggregate_reviews reviews_df
                          (bk_Title b))));
      [|now apply mapM_length in Ht].
    apply mapM_Forall2 in Hc.
    eapply Forall2_impl; [|exact Hc].
    intros b row. apply clean_book_columns.
  - rewrite finalize_contents. f_equal.
    apply filter_ext. intros r. apply keep_not_dropped.
  - now rewrite finalize_ids, finalize_length.
Qed.

(** The scenario of section 8: "Dune" (no description, no review) and the
    book without a title are dropped, "Foo" is renumbered 0. *)
Lemma main_filters_and_renumbers_witness :
  preprocess_data.main scenario_books scenario_reviews = Ok scenario_output
  /\ map id scenario_output = seq 0 (List.length scenario_output).
Proof.
  assert (Hmain : preprocess_data.main scenario_books scenario_reviews
                  = Ok scenario_output) by reflexivity.
  split; [exact Hmain|].
  destruct (main_filters_and_renumbers scenario_books scenario_reviews
              scenario_output Hmain) as (rows & _ & _ & _ & Hid).
  exact Hid.
Defined.

(** [main] returns when the authors and the categories of every book parse
    to lists of strings: the only exception it can raise is the [TypeError]
    of [' '.join] on a list that holds something else. *)
Lemma create_embedding_text_returns (row : book_row) (a c : list string) :
  authors_parsed row = map SStr a ->
  categories_parsed row = map SStr c ->
  exists text, preprocess_data.create_embedding_text row = Ok text.
Proof.
  intros Ha Hc. unfold preprocess_data.create_embedding_text.
  rewrite Ha, Hc, !join_values_strings.
  destruct (nonempty_list (map SStr a)), (nonempty_list (map SStr c));
    cbn [bind]; now eexists.
Qed.

Lemma mapM_returns {A B : Type} (f : A -> res B) (l : list A) :
  Forall (fun x => exists y, f x = Ok y) l -> exists ys, mapM f l = Ok ys.
Proof.
  induction 1 as [|x l [y Hy] _ [ys Hys]]; simpl.
  - now eexists.
  - rewrite Hy, Hys. simpl. now eexists.
Qed.

Lemma main_returns `{PyEnv} (books_df : list book) (reviews_df : list review) :
  Forall
    (fun b =>
       exists a c,
         preprocess_data.safe_parse_list (PScalar (bk_authors b))
         = Ok (map SStr a)
         /\ preprocess_data.safe_parse_list (PScalar (bk_categories b))
            = Ok (map SStr c))
    books_df ->
  exists out, preprocess_data.main books_df reviews_df = Ok out.
Proof.
  intros Hbooks.
  assert (Hrows : exists cleaned,
             mapM (preprocess_data.clean_book reviews_df) books_df = Ok cleaned
             /\ Forall (fun row => exists text,
                          preprocess_data.create_embedding_text row = Ok text)
                  cleaned).
  { induction Hbooks as [|b l (a & c & Ha & Hc) _ (cleaned & Hl & Hall)].
    - exists []. split; [reflexivity|constructor].
    - simpl. unfold preprocess_data.clean_book at 1. rewrite Ha, Hc.
      cbn [bind]. rewrite Hl. cbn [bind].
      eexists. split; [reflexivity|].
      constructor; [|exact Hall].
      now apply (create_embedding_text_returns _ a c). }
  destruct Hrows as (cleaned & Hclean & Hall).
  destruct (mapM_returns _ _ Hall) as [texts Htexts].
  unfold preprocess_data.main, preprocess_data.assemble.
  rewrite Hclean. cbn [bind]. rewrite Htexts. cbn [bind]. now eexists.
Qed.

(** The vectorized script filters and renumbers in the same way. *)
Lemma optimized_main_renumbers `{PyEnv} (books_df : list book)
  (reviews_df : list review) (out : list final_row) :
  preprocess_data_optimized.main books_df reviews_df = Ok out ->
  map id out = seq 0 (List.length out).
Proof.
  unfold preprocess_data_optimized.main.
  destruct (preprocess_data_optimized.assemble books_df reviews_df)
    as [rows|e]; simpl; [|discriminate].
  intros Ho. injection Ho as Ho. subst out.
  now rewrite finalize_ids, finalize_length.
Qed.

(** ** The text of a surviving record *)

Lemma append_empty_r (s : string) : (s ++ "")%string = s.
Proof. induction s as [|c s IH]; simpl; [reflexivity|now rewrite IH]. Qed.

Lemma join_cons (sep s : string) (l : list string) :
  exists rest, join sep (s :: l) = (s ++ rest)%string.
Proof.
  destruct l as [|t l]; simpl.
  - exists "". now rewrite append_empty_r.
  - now eexists.
Qed.

Lemma join_twice (s : string) (l : list string) :
  exists rest, join " " (s :: s :: l) = (s ++ " " ++ s ++ rest)%string.
Proof.
  destruct (join_cons " " s l) as [rest Hrest].
  exists rest. change (join " " (s :: s :: l))
    with (s ++ " " ++ join " " (s :: l))%string.
  now rewrite Hrest.
Qed.

(** With a title, the text starts with the title, twice. *)
Lemma create_embedding_text_title (row : book_row) (text : string) :
  preprocess_data.create_embedding_text row = Ok text ->
  nonempty (title_clean row) = true ->
  exists rest,
    text = (title_clean row ++ " " ++ title_clean row ++ rest)%string.
Proof.
  unfold preprocess_data.create_embedding_text.
  intros Htext Htitle. rewrite Htitle in Htext.
  destruct (nonempty (description_clean row)),
    (nonempty_list (authors_parsed row)),
    (nonempty_list (categories_parsed row)),
    (join_values " " (authors_parsed row)) as [ja|e],
    (join_values " " (categories_parsed row)) as [jc|e'],
    (nonempty (row_review_summary row));
    cbn [bind app] in Htext; try discriminate;
    apply Ok_inj in Htext; subst text; apply join_twice.
Qed.

Lemma in_finalize (rows : list (book_row * string)) (r : final_row) :
  In r (finalize rows) -> exists i row, In row rows /\ r = final_of i row.
Proof.
  unfold finalize. intros Hin. apply in_map_iff in Hin as ((i, row) & <- & Hin).
  apply in_combine_r in Hin. now exists i, row.
Qed.

(** C10: every record of the output of [main] has a title that is not
    empty and an [embedding_text] that starts with two copies of the
    title, so that no record of the output has an empty
    [embedding_text]. *)
Theorem survivors_have_embedding_text `{PyEnv} (books_df : list book)
  (reviews_df : list review) (out : list final_row) :
  preprocess_data.main books_df reviews_df = Ok out ->
  Forall
    (fun r =>
       title r <> ""
       /\ embedding_text r <> ""
       /\ exists rest,
            embedding_text r = (title r ++ " " ++ title r ++ rest)%string)
    out.
Proof.
  intros Hmain.
  destruct (main_assemble _ _ _ Hmain) as (rows & Hrows & ->).
  destruct (assemble_columns _ _ _ Hrows) as (cleaned & texts & _ & Ht & ->).
  apply mapM_Forall2 in Ht.
  assert (Hall : Forall (fun r => preprocess_data.create_embedding_text (fst r)
                                  = Ok (snd r)) (combine cleaned texts)).
  { clear -Ht. induction Ht; simpl; constructor; auto. }
  apply Forall_forall. intros r Hr.
  apply in_finalize in Hr as (i & row & Hrow & ->).
  apply filter_In in Hrow as [Hin Hkeep].
  rewrite Forall_forall in Hall. specialize (Hall row Hin).
  unfold keep in Hkeep. apply andb_true_iff in Hkeep as [Htitle _].
  destruct (create_embedding_text_title _ _ Hall Htitle) as [rest Hrest].
  simpl. split; [now apply nonempty_true|]. split; [|now exists rest].
  rewrite Hrest. destruct (title_clean (fst row)); [discriminate|].
  simpl. discriminate.
Qed.

Lemma survivors_have_embedding_text_witness :
  Forall
    (fun r =>
       title r <> ""
       /\ embedding_text r <> ""
       /\ exists rest,
            embedding_text r = (title r ++ " " ++ title r ++ rest)%string)
    scenario_output.
Proof.
  assert (Hmain : preprocess_data.main scenario_books scenario_reviews
                  = Ok scenario_output) by reflexivity.
  exact (survivors_have_embedding_text scenario_books scenario_reviews
           scenario_output Hmain).
Defined.

(** ** [nlargest]: a stable sort by decreasing key *)

Section Sorting.
Context {A : Type} (key : A -> Q).

Lemma insert_desc_perm (x : A) (l : list A) :
  Permutation (insert_desc key x l) (x :: l).
Proof.
  induction l as [|y l IH]; simpl; [reflexivity|].
  destruct (Qle_bool (key y) (key x)); [reflexivity|].
  rewrite IH. apply perm_swap.
Qed.

Lemma sort_desc_perm (l : list A) : Permutation (sort_desc key l) l.
Proof.
  induction l as [|x l IH]; simpl; [reflexivity|].
  rewrite insert_desc_perm. now constructor.
Qed.

Lemma insert_desc_sorted (x : A) (l : list A) :
  StronglySorted (fun a b => (key b <= key a)%Q) l ->
  StronglySorted (fun a b => (key b <= key a)%Q) (insert_desc key x l).
Proof.
  induction l as [|y l IH]; intros Hs; simpl.
  - constructor; constructor.
  - apply StronglySorted_inv in Hs as [Hl Hy].
    destruct (Qle_bool (key y) (key x)) eqn:Hle.
    + apply Qle_bool_iff in Hle.
      constructor; [now constructor|].
      constructor; [exact Hle|].
      eapply Forall_impl; [|exact Hy].
      intros z Hz. simpl in Hz. now apply Qle_trans with (key y).
    + constructor; [now apply IH|].
      apply (Permutation_Forall (Permutation_sym (insert_desc_perm x l))).
      constructor; [|exact Hy].
      apply Qlt_le_weak, Qnot_le_lt. intros Hyx.
      apply Qle_bool_iff in Hyx. congruence.
Qed.

Lemma sort_desc_sorted (l : list A) :
  StronglySorted (fun a b => (key b <= key a)%Q) (sort_desc key l).
Proof.
  induction l as [|x l IH]; simpl; [constructor|].
  now apply insert_desc_sorted.
Qed.

(** Inserting [x] puts it before the elements of its own key. *)
Lemma insert_desc_stable (q : Q) (x : A) (l : list A) :
  filter (fun a => Qeq_bool (key a) q) (insert_desc key x l)
  = filter (fun a => Qeq_bool (key a) q) (x :: l).
Proof.
  induction l as [|y l IH]; [reflexivity|].
  simpl insert_desc.
  destruct (Qle_bool (key y) (key x)) eqn:Hle; [reflexivity|].
  simpl in IH |- *. rewrite IH.
  destruct (Qeq_bool (key x) q) eqn:Hx; [|reflexivity].
  destruct (Qeq_bool (key y) q) eqn:Hy; [|reflexivity].
  apply Qeq_bool_iff in Hx, Hy.
  assert (Hyx : (key y <= key x)%Q) by (rewrite Hx, Hy; apply Qle_refl).
  apply Qle_bool_iff in Hyx. congruence.
Qed.

Lemma sort_desc_stable (q : Q) (l : list A) :
  filter (fun a => Qeq_bool (key a) q) (sort_desc key l)
  = filter (fun a => Qeq_bool (key a) q) l.
Proof.
  induction l as [|x l IH]; [reflexivity|].
  simpl sort_desc. rewrite insert_desc_stable. simpl. now rewrite IH.
Qed.

End Sorting.

(** Sorting the scored rows is sorting the rows by their score. *)
Lemma insert_desc_scored {A : Type} (key : A -> Q) (x : A)
  (l : list (A * Q)) :
  Forall (fun p => snd p = key (fst p)) l ->
  map fst (insert_desc snd (x, key x) l) = insert_desc key x (map fst l).
Proof.
  induction 1 as [|[y k] l Hy _ IH]; [reflexivity|].
  simpl in *. subst k.
  destruct (Qle_bool (key y) (key x)); [reflexivity|].
  simpl. now rewrite IH.
Qed.

Lemma sort_desc_scored {A : Type} (key : A -> Q) (l : list A) :
  map fst (sort_desc snd (map (fun x => (x, key x)) l)) = sort_desc key l.
Proof.
  induction l as [|x l IH]; [reflexivity|].
  simpl. rewrite insert_desc_scored, IH; [reflexivity|].
  apply (Permutation_Forall (Permutation_sym (sort_desc_perm snd _))).
  apply Forall_forall. intros p Hp.
  apply in_map_iff in Hp as (y & <- & _). reflexivity.
Qed.

Lemma fold_left_snippets {A : Type} (f : A -> list string) (l : list A)
  (acc : list string) :
  fold_left (fun acc x => acc ++ f x) l acc = acc ++ flat_map f l.
Proof.
  revert acc. induction l as [|x l IH]; intros acc; simpl.
  - now rewrite app_nil_r.
  - now rewrite IH, app_assoc.
Qed.

Lemma filter_all {A : Type} (f : A -> bool) (l : list A) :
  Forall (fun x => f x = true) l -> filter f l = l.
Proof.
  induction 1 as [|x l Hx _ IH]; simpl; [reflexivity|].
  now rewrite Hx, IH.
Qed.

(** ** [aggregate_reviews] *)

Lemma flat_map_fst {A B C : Type} (f : A -> list C) (l : list (A * B)) :
  flat_map (fun p => f (fst p)) l = flat_map f (map fst l).
Proof. induction l as [|p l IH]; simpl; [reflexivity|now rewrite IH]. Qed.

Lemma map_fst_firstn {A B : Type} (n : nat) (l : list (A * B)) :
  map fst (firstn n l) = firstn n (map fst l).
Proof.
  revert l. induction n as [|n IH]; intros [|p l]; simpl; try reflexivity.
  now rewrite IH.
Qed.

Lemma review_snippets_contributes (r : review) :
  preprocess_data.review_snippets r = Spec.contributes r.
Proof.
  unfold preprocess_data.review_snippets, Spec.contributes.
  now rewrite !nonempty_eqb; destruct (String.eqb _ ""), (String.eqb _ "").
Qed.

(** The summary [aggregate_reviews] builds, from the sorted reviews. *)
Lemma aggregate_reviews_summary (reviews_df : list review) (t : scalar) :
  let book_reviews := filter (fun r => scalar_eq (rv_Title r) t) reviews_df in
  book_reviews <> [] ->
  review_summary (preprocess_data.aggregate_reviews reviews_df t)
  = join " "
      (firstn 5
         (flat_map Spec.contributes
            (firstn 3 (sort_desc Spec.helpfulness book_reviews)))).
Proof.
  intros book_reviews Hne. unfold preprocess_data.aggregate_reviews.
  fold book_reviews.
  destruct book_reviews as [|r l] eqn:Hb; [congruence|].
  rewrite <- Hb. replace (List.length book_reviews =? 0) with false
    by (rewrite Hb; reflexivity).
  cbv zeta. cbn [review_summary].
  rewrite fold_left_snippets, app_nil_l, flat_map_fst.
  unfold nlargest. rewrite map_fst_firstn.
  rewrite (sort_desc_scored Spec.helpfulness).
  do 2 f_equal. apply flat_map_ext. intros a.
  apply review_snippets_contributes.
Qed.

(** C5, as amended: for the reviews of a title, [aggregate_reviews]
    returns their number as [review_count], the mean of their scores as
    [avg_score], and as [review_summary] the space-join of the first 5
    snippets of the 3 most helpful reviews (ties in original order), each
    of them contributing its cleaned summary if that is not empty, then the
    first 200 characters of its cleaned text if that is not empty and
    under 500 characters; without reviews it returns
    [{review_count: 0, avg_score: 0.0, review_summary: '', top_reviews: []}]. *)
Theorem aggregate_reviews_aggregates (reviews_df : list review) (t : scalar) :
  Spec.aggregates Spec.contributes
    (filter (fun r => scalar_eq (rv_Title r) t) reviews_df)
    (preprocess_data.aggregate_reviews reviews_df t).
Proof.
  pose proof (aggregate_reviews_summary reviews_df t) as Hsum.
  cbv zeta in Hsum. unfold Spec.aggregates.
  destruct (filter _ reviews_df) as [|r l] eqn:Hb.
  { unfold preprocess_data.aggregate_reviews. now rewrite Hb. }
  split; [unfold preprocess_data.aggregate_reviews; now rewrite Hb|].
  split.
  { unfold preprocess_data.aggregate_reviews. rewrite Hb.
    cbn [List.length Nat.eqb avg_score]. unfold mean.
    rewrite length_map. apply Qeq_refl. }
  exists (sort_desc Spec.helpfulness (r :: l)).
  split; [|apply Hsum; discriminate].
  split; [apply sort_desc_perm|].
  split; [apply sort_desc_sorted|].
  intros q. apply sort_desc_stable.
Qed.

(** C5, as stated, fails on three reviews of which the first has no
    summary: the empty summary is no snippet for [aggregate_reviews], which
    returns ["a b c d e"], where the claim counts it among the 5. *)
Lemma aggregate_reviews_skips_empty_summary :
  ~ Spec.aggregates Spec.contributes_as_claimed
      (filter (fun r => scalar_eq (rv_Title r) (SStr "A")) three_reviews)
      (preprocess_data.aggregate_reviews three_reviews (SStr "A")).
Proof.
  change (filter _ three_reviews) with three_reviews.
  intros (_ & _ & sorted & (Hperm & _ & Hstable) & Hsum).
  specialize (Hstable 0%Q).
  rewrite (filter_all _ three_reviews) in Hstable
    by (repeat constructor).
  rewrite filter_all in Hstable.
  - subst sorted. vm_compute in Hsum. discriminate.
  - apply (Permutation_Forall (Permutation_sym Hperm)). repeat constructor.
Qed.

(** ** The two pipelines *)

(** Without reviews the two scripts agree. *)
Lemma main_same_without_reviews `{PyEnv} (books_df : list book) :
  preprocess_data_optimized.main books_df [] = preprocess_data.main books_df [].
Proof.
  unfold preprocess_data_optimized.main, preprocess_data.main,
    preprocess_data_optimized.assemble, preprocess_data.assemble.
  replace (mapM (preprocess_data_optimized.clean_book [] _) books_df)
    with (mapM (preprocess_data.clean_book []) books_df).
  - destruct (mapM (preprocess_data.clean_book []) books_df) as [rows|e];
      [|reflexivity].
    simpl.
    replace (mapM preprocess_data_optimized.create_embedding_text rows)
      with (mapM preprocess_data.create_embedding_text rows); [reflexivity|].
    induction rows as [|r rows IH]; simpl; [reflexivity|].
    now rewrite create_embedding_text_same, IH.
  - induction books_df as [|b l IH]; simpl; [reflexivity|].
    now rewrite IH.
Qed.

(** C1, on one book with two equally helpful reviews ("a", "b") and
    ("c", "d"): the row-at-a-time script takes the reviews one after the
    other, summary then text, and writes ["a b c d"]; the vectorized script
    joins the summaries, then the texts, and writes ["a c b d"]. The two
    outputs differ in [embedding_text], where the claim has them equal
    field for field. *)
Theorem pipelines_differ `{PyEnv} :
  preprocess_data.main one_book two_reviews
  = Ok (one_book_output "A A a b c d a b c d")
  /\ preprocess_data_optimized.main one_book two_reviews
     = Ok (one_book_output "A A a c b d a c b d")
  /\ preprocess_data.main one_book two_reviews
     <> preprocess_data_optimized.main one_book two_reviews.
Proof.
  assert (Hrow : preprocess_data.main one_book two_reviews
                 = Ok (one_book_output "A A a b c d a b c d"))
    by reflexivity.
  assert (Hvec : preprocess_data_optimized.main one_book two_reviews
                 = Ok (one_book_output "A A a c b d a c b d"))
    by reflexivity.
  split; [exact Hrow|]. split; [exact Hvec|].
  rewrite Hrow, Hvec. discriminate.
Qed.

(** ** Attaching the vectors *)

Module Up := upload_embeddings_supabase_api.

Section Attachment.
Variable vector : Type.
Variable embeddings : list vector.

Local Abbreviation row := (Up.remote_row vector).
Local Abbreviation attaches := (Up.attaches vector embeddings).
Local Abbreviation World t o := (Up.Build_world vector t o).

Lemma remote_row_ext (a b : row) :
  Up.pk a = Up.pk b -> Up.faiss_index a = Up.faiss_index b ->
  Up.embedding a = Up.embedding b -> a = b.
Proof. destruct a, b; simpl; congruence. Qed.

Lemma attaches_nothing : attaches (fun r => r).
Proof. intros r. repeat split. now left. Qed.

Lemma attaches_compose (f g : row -> row) :
  attaches f -> attaches g -> attaches (fun r => g (f r)).
Proof.
  intros Hf Hg r.
  destruct (Hf r) as (Hpk & Hkey & Hf').
  destruct (Hg (f r)) as (Hpk' & Hkey' & Hg').
  split; [congruence|]. split; [congruence|].
  destruct Hg' as [Hsame|(k & e & Hk & He & Hset)].
  - destruct Hf' as [Hsame'|(k & e & Hk & He & Hset)].
    + left. congruence.
    + right. exists k, e. repeat split; congruence.
  - right. exists k, e. repeat split; congruence.
Qed.

(** One update, of the rows whose [faiss_index] is [book_id]. *)
Lemma attaches_update (book_id : Z) (e : vector) :
  Up.np_index embeddings book_id = Ok e ->
  attaches (fun r =>
              if Up.matches vector book_id r
              then Up.Build_remote_row vector (Up.pk r) (Up.faiss_index r)
                     (Some e)
              else r).
Proof.
  intros He r. unfold Up.matches.
  destruct (Up.faiss_index r) as [k|] eqn:Hk.
  - destruct (k =? book_id)%Z eqn:Hkb; simpl.
    + apply Z.eqb_eq in Hkb. subst k.
      split; [reflexivity|]. split; [reflexivity|].
      right. exists book_id, e.
      split; [reflexivity|]. split; [exact He|reflexivity].
    + split; [reflexivity|]. split; [now rewrite Hk|]. now left.
  - split; [reflexivity|]. split; [now rewrite Hk|]. now left.
Qed.

(** Done twice, such a change is the change done once: the vector a row
    gets is the one its key designates, whatever it held before. *)
Lemma attaches_idempotent (f : row -> row) (r : row) :
  attaches f -> f (f r) = f r.
Proof.
  intros Hf.
  destruct (Hf r) as (Hpk & Hkey & Hr).
  destruct Hr as [Hsame|(k & e & Hk & He & Hset)].
  - (* [f] leaves [r] as it is *)
    assert (Hfix : f r = r) by now apply remote_row_ext.
    now rewrite !Hfix.
  - destruct (Hf (f r)) as (Hpk' & Hkey' & Hfr).
    apply remote_row_ext; [exact Hpk'|exact Hkey'|].
    destruct Hfr as [Hsame|(k' & e' & Hk' & He' & Hset')]; [exact Hsame|].
    congruence.
Qed.

(** The remote update itself, applied twice as a retry after a lost answer
    does, is the update applied once. *)
Lemma set_embedding_idempotent (book_id : Z) (e : vector)
  (t : list (Up.remote_row vector)) :
  Up.set_embedding vector book_id e (Up.set_embedding vector book_id e t)
  = Up.set_embedding vector book_id e t.
Proof.
  unfold Up.set_embedding. rewrite map_map. apply map_ext. intros r.
  destruct (Up.matches vector book_id r) eqn:Hm.
  - unfold Up.matches in *. cbn [Up.faiss_index]. now rewrite Hm.
  - now rewrite Hm.
Qed.

(** A stretch [g] of the run changes the table row by row, and neither the
    change nor what the run does next depends on what the table holds. *)
Local Abbreviation rowwise g :=
  (forall o c, exists f o' c',
      attaches f
      /\ forall t, g (World t o, c) = (World (map f t) o', c')).

Lemma execute_update_rowwise (book_id : Z) (e : vector) (o : list Up.outcome) :
  Up.np_index embeddings book_id = Ok e ->
  exists f o' a,
    attaches f
    /\ forall t,
         Up.execute_update vector book_id e (World t o)
         = (World (map f t) o', a).
Proof.
  intros He. unfold Up.execute_update. cbn [Up.pending Up.table].
  destruct (hd Up.Done o).
  - eexists _, (tl o), (Ok tt).
    split; [exact (attaches_update book_id e He)|]. reflexivity.
  - eexists _, (tl o), (Raise ValueError).
    split; [exact (attaches_update book_id e He)|]. reflexivity.
  - exists (fun r => r), (tl o), (Raise ValueError).
    split; [exact attaches_nothing|]. intros t. now rewrite map_id.
Qed.

Lemma retry_rowwise (attempts : nat) (book_id : Z) (e : vector) :
  Up.np_index embeddings book_id = Ok e ->
  rowwise (Up.retry vector attempts book_id e).
Proof.
  intros He. induction attempts as [|n IH]; intros o c.
  - exists (fun r => r), o, c. split; [exact attaches_nothing|].
    intros t. simpl. now rewrite map_id.
  - destruct (execute_update_rowwise book_id e o He) as (f & o1 & a & Hf & Hrun).
    destruct a as [u|x].
    + eexists f, o1, _. split; [exact Hf|].
      intros t. cbn [Up.retry]. rewrite Hrun. reflexivity.
    + destruct (IH o1 (if n =? 0
                       then Up.Build_counters (Up.total_updated c)
                              (Up.failed c + 1)
                       else c)) as (g & o2 & c2 & Hg & Hrest).
      exists (fun r => g (f r)), o2, c2.
      split; [now apply attaches_compose|].
      intros t. cbn [Up.retry]. rewrite Hrun, Hrest. now rewrite map_map.
Qed.

Lemma upload_row_rowwise (row_id : option Z) :
  rowwise (fun s => Up.upload_row vector embeddings s row_id).
Proof.
  intros o c. unfold Up.upload_row.
  destruct row_id as [book_id|].
  - cbn [bind]. destruct (Up.np_index embeddings book_id) as [e|x] eqn:He.
    + cbn [bind]. apply (retry_rowwise 2 book_id e He).
    + eexists (fun r => r), o, _. split; [exact attaches_nothing|].
      intros t. cbn [bind fst snd]. now rewrite map_id.
  - eexists (fun r => r), o, _. split; [exact attaches_nothing|].
    intros t. cbn [bind fst snd]. now rewrite map_id.
Qed.

Lemma fold_left_rowwise {X : Type}
  (step : Up.world vector * Up.counters -> X -> Up.world vector * Up.counters)
  (l : list X) :
  (forall x, rowwise (fun s => step s x)) ->
  rowwise (fun s => fold_left step l s).
Proof.
  intros Hstep. induction l as [|x l IH]; intros o c.
  - exists (fun r => r), o, c. split; [exact attaches_nothing|].
    intros t. simpl. now rewrite map_id.
  - destruct (Hstep x o c) as (f & o1 & c1 & Hf & Hx).
    destruct (IH o1 c1) as (g & o2 & c2 & Hg & Hl).
    exists (fun r => g (f r)), o2, c2.
    split; [now apply attaches_compose|].
    intros t. simpl. rewrite Hx, Hl. now rewrite map_map.
Qed.

Lemma upload_rowwise (ids : list (option Z)) :
  rowwise (Up.upload vector ids embeddings).
Proof.
  unfold Up.upload.
  apply (fold_left_rowwise
           (fun s i =>
              fold_left (Up.upload_row vector embeddings)
                (Up.iloc ids i (i + Up.batch_size)) s)).
  intros i. apply (fold_left_rowwise (Up.upload_row vector embeddings)).
  exact upload_row_rowwise.
Qed.

(** C9: the attachment run a second time on the table the first run left,
    with the same books and embeddings and the same outcome of each
    request, leaves every remote row, and so its vector column, as the
    first run left it. *)
Theorem attachment_idempotent (ids : list (option Z))
  (t : list (Up.remote_row vector)) (o : list Up.outcome) :
  let once := Up.table (fst (Up.main vector ids embeddings (World t o))) in
  Up.table (fst (Up.main vector ids embeddings (World once o))) = once.
Proof.
  unfold Up.main.
  destruct (upload_rowwise ids o (Up.Build_counters 0 0))
    as (f & o' & c' & Hf & Hrun).
  cbv zeta. rewrite !Hrun. cbn [fst Up.table].
  rewrite map_map. apply map_ext. intros r.
  now apply attaches_idempotent.
Qed.

End Attachment.

(** A run on [remote_books]: the update of book 0 is refused, then applied
    with its answer lost, and counts as failed; the update of book 1
    reaches both rows of book 1; the row without an [id] counts as failed. *)
Example upload_on_a_bad_network :
  Up.main (list Z) [Some 0%Z; None; Some 1%Z] two_embeddings
    (Up.Build_world _ remote_books bad_network)
  = (Up.Build_world _
       [ Up.Build_remote_row _ 10 (Some 1%Z) (Some [5; 6]%Z);
         Up.Build_remote_row _ 11 (Some 0%Z) (Some [3; 4]%Z);
         Up.Build_remote_row _ 12 (Some 1%Z) (Some [5; 6]%Z) ]
       [],
     Up.Build_counters 1 2).
Proof. reflexivity. Qed.

(** * Further properties of the scripts *)

(** ** [clean_text] *)


Lemma append_assoc (s t u : string) :
  ((s ++ t) ++ u)%string = (s ++ t ++ u)%string.
Proof. induction s as [|c s IH]; simpl; [reflexivity|now rewrite IH]. Qed.

Lemma nonempty_app_r (s : string) (c : ascii) (t : string) :
  nonempty (s ++ String c t) = true.
Proof. now destruct s. Qed.










(** ** [safe_parse_list] on the cells of a table *)

(** X2: on a value that is not a list, [safe_parse_list] of either script
    never raises: it returns the empty list for a missing value and for
    the empty string, the list itself when the string is the literal of a
    list, and the one-element list of the string when the string is no
    literal at all. *)
Theorem safe_parse_list_cell `{PyEnv} (x : scalar) :
  exists l,
    preprocess_data.safe_parse_list (PScalar x) = Ok l
    /\ preprocess_data_optimized.safe_parse_list (PScalar x) = Ok l
    /\ (x = SNaN \/ x = SStr "" -> l = [])
    /\ (forall s l', x = SStr s -> s <> "" ->
                     literal_eval s = Some (PList l') -> l = l')
    /\ (forall s, x = SStr s -> s <> "" ->
                  literal_eval s = None -> l = [SStr s]).
Proof.
  destruct (safe_parse_list_scalar x) as [l Hl].
  exists l. split; [exact Hl|]. split; [exact Hl|].
  unfold preprocess_data.safe_parse_list, truth, isna, bind in Hl.
  split; [|split].
  - intros [-> | ->]; simpl in Hl; apply Ok_inj in Hl; now symmetry.
  - intros s l' -> Hs Hlit.
    destruct s as [|c s]; [congruence|].
    cbn [scalar_isna eq_empty orb] in Hl.
    unfold ast_literal_eval, try_except in Hl. rewrite Hlit in Hl.
    apply Ok_inj in Hl. now symmetry.
  - intros s -> Hs Hlit.
    destruct s as [|c s]; [congruence|].
    cbn [scalar_isna eq_empty orb] in Hl.
    unfold ast_literal_eval, try_except in Hl. rewrite Hlit in Hl.
    apply Ok_inj in Hl. now symmetry.
Qed.

(** ** Helpfulness of a well-formed string *)

Lemma int_empty : int "" = None.
Proof. reflexivity. Qed.




(** X4: the two scripts score every cell of the helpfulness column alike,
    a missing or empty cell included: the vectorized [parse_helpfulness]
    is the row-at-a-time computation. *)
Theorem parse_helpfulness_agrees (cells : list scalar) :
  map preprocess_data_optimized.parse_helpfulness cells
  = map preprocess_data.helpfulness_score cells.
Proof.
  apply map_ext. intros h. apply helpfulness_same.
Qed.

Lemma mapM_create_embedding_text_same (rows : list book_row) :
  mapM preprocess_data_optimized.create_embedding_text rows
  = mapM preprocess_data.create_embedding_text rows.
Proof.
  induction rows as [|row rows IH]; simpl; [reflexivity|].
  now rewrite create_embedding_text_same, IH.
Qed.

Lemma join_values_returns (sep : string) (l : list scalar) :
  (exists text, join_values sep l = Ok text)
  <-> Forall (fun x => exists s, x = SStr s) l.
Proof.
  unfold join_values. split.
  - intros [text Htext].
    destruct (mapM as_str l) as [ss|e] eqn:Hss; [|discriminate].
    apply mapM_Forall2 in Hss. clear -Hss.
    induction Hss as [|x s l ss Hx _ IH]; constructor; [|exact IH].
    destruct x; try discriminate. now eexists.
  - intros Hall.
    assert (Hss : exists ss, l = map SStr ss).
    { induction Hall as [|x l [s ->] _ [ss ->]]; [now exists []|].
      now exists (s :: ss). }
    destruct Hss as [ss ->]. rewrite mapM_as_str. now eexists.
Qed.

(** X5: on every row the two scripts build the same [embedding_text] or
    raise the same error ([parts.extend([x] * n)] of the vectorized script
    does what the repeated [parts.append(x)] does), and they raise exactly
    when the parsed authors or categories hold something that is not a
    string. *)
Theorem create_embedding_text_agrees (row : book_row) :
  preprocess_data_optimized.create_embedding_text row
  = preprocess_data.create_embedding_text row
  /\ ((exists text, preprocess_data.create_embedding_text row = Ok text)
      <-> Forall (fun x => exists s, x = SStr s) (authors_parsed row)
          /\ Forall (fun x => exists s, x = SStr s) (categories_parsed row)).
Proof.
  split; [apply create_embedding_text_same|].
  unfold preprocess_data.create_embedding_text.
  pose proof (join_values_returns " " (authors_parsed row)) as Ha.
  pose proof (join_values_returns " " (categories_parsed row)) as Hc.
  destruct (authors_parsed row) as [|a la] eqn:Hla;
    destruct (categories_parsed row) as [|c lc] eqn:Hlc;
    cbn [nonempty_list bind].
  - split; [intros _; split; constructor|intros _; now eexists].
  - destruct (join_values " " (c :: lc)) as [jc|e]; cbn [bind].
    + split; [intros _; split; [constructor|apply Hc; now eexists]
             |intros _; now eexists].
    + split; [intros [text Ht]; discriminate|].
      intros [_ Hall]. apply Hc in Hall as [text Ht]. discriminate.
  - destruct (join_values " " (a :: la)) as [ja|e]; cbn [bind].
    + split; [intros _; split; [apply Ha; now eexists|constructor]
             |intros _; now eexists].
    + split; [intros [text Ht]; discriminate|].
      intros [Hall _]. apply Ha in Hall as [text Ht]. discriminate.
  - destruct (join_values " " (a :: la)) as [ja|e]; cbn [bind].
    + destruct (join_values " " (c :: lc)) as [jc|e]; cbn [bind].
      * split; [intros _; split; [apply Ha|apply Hc]; now eexists
               |intros _; now eexists].
      * split; [intros [text Ht]; discriminate|].
        intros [_ Hall]. apply Hc in Hall as [text Ht]. discriminate.
    + split; [intros [text Ht]; discriminate|].
      intros [Hall _]. apply Ha in Hall as [text Ht]. discriminate.
Qed.

(** ** What [nlargest] selects *)

Lemma StronglySorted_app {A : Type} (R : A -> A -> Prop) (l1 l2 : list A) :
  StronglySorted R (l1 ++ l2) ->
  StronglySorted R l1 /\ forall x y, In x l1 -> In y l2 -> R x y.
Proof.
  induction l1 as [|a l1 IH]; simpl; intros Hs.
  - split; [constructor|]. intros x y [].
  - apply StronglySorted_inv in Hs as [Hs Ha].
    destruct (IH Hs) as [Hl1 Hcross].
    apply Forall_app in Ha as [Ha1 Ha2].
    split; [now constructor|].
    intros x y [<-|Hx] Hy; [|now apply Hcross].
    rewrite Forall_forall in Ha2. now apply Ha2.
Qed.

(** [nlargest n] keeps [min n (len df)] rows of the table, in decreasing
    order of the key, and no row it leaves out has a larger key than a row
    it keeps. *)
Lemma nlargest_selects {A : Type} (key : A -> Q) (n : nat) (l : list A) :
  List.length (nlargest n key l) = Nat.min n (List.length l)
  /\ StronglySorted (fun a b => (key b <= key a)%Q) (nlargest n key l)
  /\ exists rest,
       Permutation (nlargest n key l ++ rest) l
       /\ forall x y, In x (nlargest n key l) -> In y rest ->
                      (key y <= key x)%Q.
Proof.
  unfold nlargest.
  pose proof (sort_desc_sorted key l) as Hsorted.
  rewrite <- (firstn_skipn n (sort_desc key l)) in Hsorted.
  apply StronglySorted_app in Hsorted as [Hkept Hcross].
  split.
  { rewrite length_firstn.
    now rewrite (Permutation_length (sort_desc_perm key l)). }
  split; [exact Hkept|].
  exists (skipn n (sort_desc key l)). split; [|exact Hcross].
  rewrite firstn_skipn. apply sort_desc_perm.
Qed.

(** X6: the reviews from which [aggregate_reviews] draws the snippets of
    [review_summary] are [min(3, n)] of the [n] reviews of the title, and
    none of the reviews it leaves out is more helpful than one it takes. *)
Theorem top_reviews_are_most_helpful (reviews_df : list review) (t : scalar) :
  let book_reviews := filter (fun r => scalar_eq (rv_Title r) t) reviews_df in
  book_reviews <> [] ->
  exists top rest,
    Permutation (top ++ rest) book_reviews
    /\ List.length top = Nat.min 3 (List.length book_reviews)
    /\ (forall x y, In x top -> In y rest ->
                    (Spec.helpfulness y <= Spec.helpfulness x)%Q)
    /\ review_summary (preprocess_data.aggregate_reviews reviews_df t)
       = join " " (firstn 5 (flat_map Spec.contributes top)).
Proof.
  intros book_reviews Hne.
  destruct (nlargest_selects Spec.helpfulness 3 book_reviews)
    as (Hlen & _ & rest & Hperm & Hcross).
  exists (nlargest 3 Spec.helpfulness book_reviews), rest.
  split; [exact Hperm|]. split; [exact Hlen|]. split; [exact Hcross|].
  now apply aggregate_reviews_summary.
Qed.

Lemma top_reviews_are_most_helpful_witness :
  exists top rest,
    Permutation (top ++ rest) three_reviews
    /\ List.length top = 3
    /\ (forall x y, In x top -> In y rest ->
                    (Spec.helpfulness y <= Spec.helpfulness x)%Q)
    /\ review_summary (preprocess_data.aggregate_reviews three_reviews (SStr "A"))
       = join " " (firstn 5 (flat_map Spec.contributes top)).
Proof.
  apply (top_reviews_are_most_helpful three_reviews (SStr "A")).
  discriminate.
Defined.

(** ** The two scripts, book by book *)









Lemma aggregate_guard (reviews_df : list review) (t : scalar) :
  (if nonempty_list reviews_df then
     if preprocess_data.in_titles t (map rv_Title reviews_df)
     then preprocess_data.aggregate_reviews reviews_df t
     else preprocess_data.no_reviews
   else preprocess_data.no_reviews)
  = preprocess_data.aggregate_reviews reviews_df t.
Proof.
  destruct reviews_df as [|r l]; [reflexivity|]. cbn [nonempty_list].
  destruct (preprocess_data.in_titles _ _) eqn:Hin; [reflexivity|].
  now rewrite aggregate_reviews_unreviewed.
Qed.

Lemma aggregate_reviews_count (reviews_df : list review) (t : scalar) :
  let book_reviews := filter (fun r => scalar_eq (rv_Title r) t) reviews_df in
  match book_reviews with
  | [] =>
      preprocess_data.aggregate_reviews reviews_df t
      = preprocess_data.no_reviews
  | _ :: _ =>
      review_count (preprocess_data.aggregate_reviews reviews_df t)
      = List.length book_reviews
      /\ avg_score (preprocess_data.aggregate_reviews reviews_df t)
         = mean (map rv_score book_reviews)
  end.
Proof.
  cbv zeta. unfold preprocess_data.aggregate_reviews.
  destruct (filter _ reviews_df) as [|r l]; [reflexivity|].
  split; reflexivity.
Qed.


(** ** Invariants of the output *)

Lemma clean_book_aggregate `{PyEnv} (reviews_df : list review) (b : book)
  (row : book_row) :
  preprocess_data.clean_book reviews_df b = Ok row ->
  let agg := preprocess_data.aggregate_reviews reviews_df (bk_Title b) in
  row_review_count row = review_count agg
  /\ row_avg_score row = avg_score agg
  /\ row_review_summary row = review_summary agg.
Proof.
  unfold preprocess_data.clean_book. rewrite aggregate_guard.
  destruct (preprocess_data.safe_parse_list (PScalar (bk_authors b)));
    cbn [bind]; [|discriminate].
  destruct (preprocess_data.safe_parse_list (PScalar (bk_categories b)));
    cbn [bind]; [|discriminate].
  intros Hrow. apply Ok_inj in Hrow. subst row. now repeat split.
Qed.

Lemma aggregate_without_reviews (reviews_df : list review) (t : scalar) :
  review_count (preprocess_data.aggregate_reviews reviews_df t) = 0 ->
  preprocess_data.aggregate_reviews reviews_df t = preprocess_data.no_reviews.
Proof.
  pose proof (aggregate_reviews_count reviews_df t) as Hagg. cbv zeta in Hagg.
  destruct (filter _ reviews_df) as [|r l]; [intros _; exact Hagg|].
  destruct Hagg as [-> _]. discriminate.
Qed.

Lemma Forall2_Forall_r {A B : Type} (R : A -> B -> Prop) (P : B -> Prop)
  (l : list A) (l' : list B) :
  Forall2 R l l' -> (forall x y, R x y -> P y) -> Forall P l'.
Proof. induction 1; intros HR; constructor; eauto. Qed.

(** X8: in the output of [main] of [preprocess_data.py] a record without
    reviews has the rating 0 and a description that is not empty; so a
    record whose description is empty has at least one review. *)
Theorem output_without_reviews `{PyEnv} (books_df : list book)
  (reviews_df : list review) (out : list final_row) :
  preprocess_data.main books_df reviews_df = Ok out ->
  Forall
    (fun r =>
       (final_review_count r = 0 -> avg_rating r = 0%Q /\ description r <> "")
       /\ (description r = "" -> 1 <= final_review_count r))
    out.
Proof.
  intros Hmain.
  destruct (main_assemble _ _ _ Hmain) as (rows & Hrows & ->).
  destruct (assemble_columns _ _ _ Hrows) as (cleaned & texts & Hc & _ & ->).
  apply mapM_Forall2 in Hc.
  assert (Hall : Forall
            (fun row =>
               row_review_count row = 0 ->
               row_avg_score row = 0%Q /\ row_review_summary row = "")
            cleaned).
  { apply (Forall2_Forall_r _ _ _ _ Hc). intros b row Hb Hzero.
    destruct (clean_book_aggregate _ _ _ Hb) as (Hcount & Havg & Hsum).
    rewrite Hcount in Hzero. apply aggregate_without_reviews in Hzero.
    rewrite Havg, Hsum, Hzero. now split. }
  rewrite Forall_forall in Hall.
  apply Forall_forall. intros r Hr.
  apply in_finalize in Hr as (i & row & Hrow & ->).
  apply filter_In in Hrow as [Hin Hkeep].
  specialize (Hall (fst row)). destruct row as [row text].
  apply in_combine_l in Hin. specialize (Hall Hin).
  unfold keep in Hkeep. cbn [fst] in *.
  apply andb_true_iff in Hkeep as [_ Hkeep].
  assert (Hfirst : row_review_count row = 0 ->
                   row_avg_score row = 0%Q /\ description_clean row <> "").
  { intros Hzero. destruct (Hall Hzero) as [Havg Hsum].
    split; [exact Havg|]. rewrite Hsum in Hkeep.
    rewrite orb_false_r in Hkeep. now apply nonempty_true. }
  cbn [final_of final_review_count avg_rating description fst].
  split; [exact Hfirst|].
  intros Hdesc. destruct (row_review_count row) as [|n] eqn:Hn; [|lia].
  destruct (Hfirst eq_refl) as [_ Hne]. contradiction.
Qed.

Lemma output_without_reviews_witness :
  Forall
    (fun r =>
       (final_review_count r = 0 -> avg_rating r = 0%Q /\ description r <> "")
       /\ (description r = "" -> 1 <= final_review_count r))
    scenario_output.
Proof.
  assert (Hmain : preprocess_data.main scenario_books scenario_reviews
                  = Ok scenario_output) by reflexivity.
  exact (output_without_reviews scenario_books scenario_reviews
           scenario_output Hmain).
Defined.

Lemma optimized_main_assemble `{PyEnv} (books_df : list book)
  (reviews_df : list review) (out : list final_row) :
  preprocess_data_optimized.main books_df reviews_df = Ok out ->
  exists cleaned texts,
    mapM preprocess_data_optimized.create_embedding_text cleaned = Ok texts
    /\ out = finalize (filter keep (combine cleaned texts)).
Proof.
  unfold preprocess_data_optimized.main, preprocess_data_optimized.assemble.
  destruct (mapM _ books_df) as [cleaned|e]; cbn [bind]; [|discriminate].
  destruct (mapM _ cleaned) as [texts|e] eqn:Ht; cbn [bind]; [|discriminate].
  intros Ho. apply Ok_inj in Ho. exists cleaned, texts.
  split; [exact Ht|now symmetry].
Qed.

(** X9: the output of [main] of [preprocess_data_optimized.py] also has
    the [id]s 0, 1, ..., n-1 in order, every record with a title that is
    not empty and an [embedding_text] that starts with two copies of it. *)
Theorem optimized_output_invariant `{PyEnv} (books_df : list book)
  (reviews_df : list review) (out : list final_row) :
  preprocess_data_optimized.main books_df reviews_df = Ok out ->
  map id out = seq 0 (List.length out)
  /\ Forall
       (fun r =>
          title r <> ""
          /\ exists rest,
               embedding_text r = (title r ++ " " ++ title r ++ rest)%string)
       out.
Proof.
  intros Hmain.
  destruct (optimized_main_assemble _ _ _ Hmain) as (cleaned & texts & Ht & ->).
  split; [now rewrite finalize_ids, finalize_length|].
  rewrite mapM_create_embedding_text_same in Ht. apply mapM_Forall2 in Ht.
  assert (Hall : Forall (fun r => preprocess_data.create_embedding_text (fst r)
                                  = Ok (snd r)) (combine cleaned texts)).
  { clear -Ht. induction Ht; simpl; constructor; auto. }
  rewrite Forall_forall in Hall.
  apply Forall_forall. intros r Hr.
  apply in_finalize in Hr as (i & row & Hrow & ->).
  apply filter_In in Hrow as [Hin Hkeep].
  unfold keep in Hkeep. apply andb_true_iff in Hkeep as [Htitle _].
  split; [now apply nonempty_true|].
  exact (create_embedding_text_title _ _ (Hall row Hin) Htitle).
Qed.

Lemma optimized_output_invariant_witness :
  map id scenario_output = seq 0 (List.length scenario_output)
  /\ Forall
       (fun r =>
          title r <> ""
          /\ exists rest,
               embedding_text r = (title r ++ " " ++ title r ++ rest)%string)
       scenario_output.
Proof.
  assert (Hmain : preprocess_data_optimized.main scenario_books
                    scenario_reviews = Ok scenario_output) by reflexivity.
  exact (optimized_output_invariant scenario_books scenario_reviews
           scenario_output Hmain).
Defined.




(** ** Batches *)

Lemma fold_left_concat {S X : Type} (step : S -> X -> S) (ls : list (list X))
  (s : S) :
  fold_left (fun s l => fold_left step l s) ls s
  = fold_left step (List.concat ls) s.
Proof.
  revert s. induction ls as [|l ls IH]; intros s; simpl; [reflexivity|].
  now rewrite fold_left_app, IH.
Qed.

Lemma range_from_cover {X : Type} (l : list X) (size fuel start : nat) :
  0 < size -> List.length l - start <= fuel ->
  List.concat
    (map (fun i => Up.iloc l i (i + size))
       (Up.range_from fuel start (List.length l) size))
  = skipn start l.
Proof.
  intros Hsize. revert start.
  induction fuel as [|fuel IH]; intros start Hfuel; simpl.
  - symmetry. apply skipn_all2. lia.
  - destruct (start <? List.length l) eqn:Hlt.
    + apply Nat.ltb_lt in Hlt. simpl. rewrite IH by lia.
      unfold Up.iloc. replace (start + size - start) with size by lia.
      etransitivity; [|apply (firstn_skipn size)].
      f_equal. rewrite skipn_skipn. f_equal. lia.
    + apply Nat.ltb_ge in Hlt. symmetry. apply skipn_all2. exact Hlt.
Qed.

(** The slices [l[i:i+size]] for [i] in [range(0, len(l), size)], one
    after the other, are [l]. *)
Lemma batches_cover {X : Type} (l : list X) (size : nat) :
  0 < size ->
  List.concat
    (map (fun i => Up.iloc l i (i + size)) (Up.range 0 (List.length l) size))
  = l.
Proof.
  intros Hsize. unfold Up.range.
  now rewrite range_from_cover by lia.
Qed.

Lemma fold_left_map {S X Y : Type} (step : S -> Y -> S) (f : X -> Y)
  (l : list X) (s : S) :
  fold_left (fun s x => step s (f x)) l s = fold_left step (map f l) s.
Proof.
  revert s. induction l as [|x l IH]; intros s; simpl; [reflexivity|apply IH].
Qed.

(** ** The attachment run, row by row *)

Section Accounting.
Variable vector : Type.
Variable embeddings : list vector.

Local Abbreviation World t o := (Up.Build_world vector t o).
Local Abbreviation tally c := (Up.total_updated c + Up.failed c).

(** The batches of [main] are no more than a way to walk the rows. *)
Lemma upload_unbatched (ids : list (option Z))
  (s : Up.world vector * Up.counters) :
  Up.upload vector ids embeddings s
  = fold_left (Up.upload_row vector embeddings) ids s.
Proof.
  unfold Up.upload.
  rewrite (fold_left_map
             (fun s batch => fold_left (Up.upload_row vector embeddings) batch s)
             (fun i => Up.iloc ids i (i + Up.batch_size))).
  rewrite fold_left_concat, batches_cover; [reflexivity|].
  unfold Up.batch_size. lia.
Qed.

Lemma upload_row_tally (s : Up.world vector * Up.counters)
  (row_id : option Z) :
  tally (snd (Up.upload_row vector embeddings s row_id)) = S (tally (snd s)).
Proof.
  unfold Up.upload_row. destruct s as [w c].
  destruct row_id as [k|]; cbn [bind fst snd]; [|simpl; lia].
  destruct (Up.np_index embeddings k) as [e|x]; cbn [bind fst snd];
    [|simpl; lia].
  cbn [Up.retry].
  destruct (Up.execute_update vector k e w) as [w1 [u|x1]]; [simpl; lia|].
  cbn [Nat.eqb].
  destruct (Up.execute_update vector k e w1) as [w2 [u|x2]]; simpl; lia.
Qed.

(** X11: whatever the network does, [main] of
    [upload_embeddings_supabase_api.py] counts every row of [books_df]
    once, as updated or as failed: at the end
    [total_updated + failed = len(books_df)]. *)
Theorem upload_counts_every_row (ids : list (option Z))
  (t : list (Up.remote_row vector)) (o : list Up.outcome) :
  let c := snd (Up.main vector ids embeddings (World t o)) in
  Up.total_updated c + Up.failed c = List.length ids.
Proof.
  unfold Up.main. rewrite upload_unbatched.
  assert (Hfold : forall l s,
             tally (snd (fold_left (Up.upload_row vector embeddings) l s))
             = List.length l + tally (snd s)).
  { induction l as [|x l IH]; intros s; [reflexivity|].
    simpl fold_left. rewrite IH, upload_row_tally. simpl. lia. }
  cbv zeta. rewrite Hfold. simpl. lia.
Qed.

End Accounting.

Section Effects.
Variable vector : Type.
Variable embeddings : list vector.
Variable ids : list (option Z).

Local Abbreviation World t o := (Up.Build_world vector t o).

(** [r'] is the remote row [r] after some requests of a run over the books
    [ids]: the keys are those of [r], and the vector is the one [r] had or
    the embedding that the [faiss_index] of [r], the [id] of one of the
    books, designates. *)
Local Abbreviation related r r' :=
  (Up.pk r' = Up.pk r
   /\ Up.faiss_index r' = Up.faiss_index r
   /\ (Up.embedding r' = Up.embedding r
       \/ exists k e,
            Up.faiss_index r = Some k
            /\ In (Some k) ids
            /\ Up.np_index embeddings k = Ok e
            /\ Up.embedding r' = Some e)).

Lemma related_refl (t : list (Up.remote_row vector)) :
  Forall2 (fun r r' => related r r') t t.
Proof.
  induction t as [|r t IH]; constructor; [|exact IH].
  split; [reflexivity|]. split; [reflexivity|]. now left.
Qed.

Lemma related_set_embedding (book_id : Z) (e : vector)
  (t t1 : list (Up.remote_row vector)) :
  In (Some book_id) ids -> Up.np_index embeddings book_id = Ok e ->
  Forall2 (fun r r' => related r r') t t1 ->
  Forall2 (fun r r' => related r r') t (Up.set_embedding vector book_id e t1).
Proof.
  intros Hin He. induction 1 as [|r r1 t t1 (Hpk & Hkey & Hemb) _ IH];
    simpl; constructor; [|exact IH].
  unfold Up.matches. destruct (Up.faiss_index r1) as [k|] eqn:Hk.
  - destruct (k =? book_id)%Z eqn:Hkb.
    + apply Z.eqb_eq in Hkb. subst k. cbn.
      split; [exact Hpk|]. split; [exact Hkey|].
      right. exists book_id, e. now repeat split.
    + split; [exact Hpk|]. split; [now rewrite Hk in *|exact Hemb].
  - split; [exact Hpk|]. split; [now rewrite Hk in *|exact Hemb].
Qed.

Lemma related_execute_update (book_id : Z) (e : vector)
  (t : list (Up.remote_row vector)) (w : Up.world vector) :
  In (Some book_id) ids -> Up.np_index embeddings book_id = Ok e ->
  Forall2 (fun r r' => related r r') t (Up.table w) ->
  Forall2 (fun r r' => related r r') t
    (Up.table (fst (Up.execute_update vector book_id e w))).
Proof.
  intros Hin He Hrel. unfold Up.execute_update.
  destruct (hd Up.Done (Up.pending w)); cbn [fst Up.table];
    [now apply related_set_embedding..|exact Hrel].
Qed.

Lemma related_retry (attempts : nat) (book_id : Z) (e : vector)
  (t : list (Up.remote_row vector)) (s : Up.world vector * Up.counters) :
  In (Some book_id) ids -> Up.np_index embeddings book_id = Ok e ->
  Forall2 (fun r r' => related r r') t (Up.table (fst s)) ->
  Forall2 (fun r r' => related r r') t
    (Up.table (fst (Up.retry vector attempts book_id e s))).
Proof.
  intros Hin He. revert s.
  induction attempts as [|n IH]; intros [w c] Hrel; [exact Hrel|].
  cbn [Up.retry].
  pose proof (related_execute_update book_id e t w Hin He Hrel) as Hstep.
  destruct (Up.execute_update vector book_id e w) as [w1 [u|x]];
    [exact Hstep|].
  apply IH. exact Hstep.
Qed.

Lemma related_upload_row (row_id : option Z)
  (t : list (Up.remote_row vector)) (s : Up.world vector * Up.counters) :
  In row_id ids ->
  Forall2 (fun r r' => related r r') t (Up.table (fst s)) ->
  Forall2 (fun r r' => related r r') t
    (Up.table (fst (Up.upload_row vector embeddings s row_id))).
Proof.
  intros Hin Hrel. unfold Up.upload_row.
  destruct row_id as [k|]; cbn [bind]; [|exact Hrel].
  destruct (Up.np_index embeddings k) as [e|x] eqn:He; cbn [bind];
    [|exact Hrel].
  now apply related_retry.
Qed.

Lemma related_upload (t : list (Up.remote_row vector)) (o : list Up.outcome) :
  Forall2 (fun r r' => related r r') t
    (Up.table (fst (Up.main vector ids embeddings (World t o)))).
Proof.
  unfold Up.main. rewrite upload_unbatched.
  assert (Hfold : forall l s,
             incl l ids ->
             Forall2 (fun r r' => related r r') t (Up.table (fst s)) ->
             Forall2 (fun r r' => related r r') t
               (Up.table (fst (fold_left (Up.upload_row vector embeddings) l s)))).
  { induction l as [|x l IH]; intros s Hincl Hrel; [exact Hrel|].
    simpl. apply IH; [intros y Hy; apply Hincl; now right|].
    apply related_upload_row; [apply Hincl; now left|exact Hrel]. }
  apply Hfold; [apply incl_refl|]. apply related_refl.
Qed.

(** X12: whatever the network does, a run of
    [upload_embeddings_supabase_api.py] adds and removes no remote row
    and changes no primary key and no [faiss_index]; the vector of a row is
    the one it had, or the embedding that its [faiss_index] designates when
    that is the [id] of one of the books. A row whose [faiss_index] is NULL
    or is the [id] of no book is left as it was. *)
Theorem upload_touches_only_vectors (t : list (Up.remote_row vector))
  (o : list Up.outcome) :
  let t' := Up.table (fst (Up.main vector ids embeddings (World t o))) in
  map Up.pk t' = map Up.pk t
  /\ map Up.faiss_index t' = map Up.faiss_index t
  /\ Forall2
       (fun r r' =>
          (Up.embedding r' = Up.embedding r
           \/ exists k e,
                Up.faiss_index r = Some k
                /\ In (Some k) ids
                /\ Up.np_index embeddings k = Ok e
                /\ Up.embedding r' = Some e)
          /\ ((forall k, Up.faiss_index r = Some k -> ~ In (Some k) ids) ->
              r' = r))
       t t'.
Proof.
  cbv zeta. pose proof (related_upload t o) as Hrel.
  induction Hrel as [|r r' t0 t0' (Hpk & Hkey & Hemb) _ (IHpk & IHkey & IH)].
  - repeat split; constructor.
  - simpl. split; [now rewrite Hpk, IHpk|]. split; [now rewrite Hkey, IHkey|].
    constructor; [|exact IH].
    split; [exact Hemb|].
    intros Hnot. apply remote_row_ext; [exact Hpk|exact Hkey|].
    destruct Hemb as [Hsame|(k & e & Hk & Hin & _)]; [exact Hsame|].
    now destruct (Hnot k Hk).
Qed.

Lemma attached_keys (l : list (option Z)) (r : Up.remote_row vector) :
  Up.pk (Props.attached vector l embeddings r) = Up.pk r
  /\ Up.faiss_index (Props.attached vector l embeddings r) = Up.faiss_index r.
Proof.
  unfold Props.attached.
  destruct (Up.faiss_index r) as [k|] eqn:Hk; [|now rewrite Hk].
  destruct (existsb _ l); [|now rewrite Hk].
  destruct (Up.np_index embeddings k); [|now rewrite Hk].
  now split.
Qed.

(** X13: a table in which the vectors of the books are attached is left as
    it is by any further run over the same books and embeddings, whatever
    the network does during that run: retrying a whole run is safe. *)
Theorem upload_after_attached (t : list (Up.remote_row vector))
  (o : list Up.outcome) :
  Up.table
    (fst (Up.main vector ids embeddings
            (World (map (Props.attached vector ids embeddings) t) o)))
  = map (Props.attached vector ids embeddings) t.
Proof.
  pose proof (related_upload (map (Props.attached vector ids embeddings) t) o)
    as Hrel.
  remember (Up.table _) as t' eqn:Ht'. clear Ht'.
  remember (map (Props.attached vector ids embeddings) t) as t1 eqn:Ht1.
  revert t Ht1.
  induction Hrel as [|r1 r' t1 t' (Hpk & Hkey & Hemb) _ IH];
    intros t Ht1; [reflexivity|].
  destruct t as [|r t]; [discriminate|].
  simpl in Ht1. injection Ht1 as Hr1 Ht1.
  f_equal; [|now apply IH with t].
  apply remote_row_ext; [exact Hpk|exact Hkey|].
  destruct Hemb as [Hsame|(k & e & Hk & Hin & He & Hset)]; [exact Hsame|].
  rewrite Hset. subst r1.
  destruct (attached_keys ids r) as [_ Hkeys]. rewrite Hkeys in Hk.
  unfold Props.attached. rewrite Hk.
  replace (existsb (Props.is_id k) ids) with true.
  - now rewrite He.
  - symmetry. apply existsb_exists. exists (Some k).
    split; [exact Hin|]. simpl. apply Z.eqb_refl.
Qed.

End Effects.

(** ** The attachment run on a network without failures *)

Section FailureFree.
Variable vector : Type.
Variable embeddings : list vector.

Local Abbreviation World t o := (Up.Build_world vector t o).
Local Abbreviation attached l := (Props.attached vector l embeddings).
Local Abbreviation has_embedding := (Props.has_embedding vector embeddings).

Lemma existsb_snoc {X : Type} (p : X -> bool) (l : list X) (x : X) :
  existsb p (l ++ [x]) = existsb p l || p x.
Proof. rewrite existsb_app. simpl. now rewrite orb_false_r. Qed.

(** A book without an embedding attaches nothing. *)
Lemma attached_snoc_invalid (done : list (option Z)) (row_id : option Z)
  (r : Up.remote_row vector) :
  has_embedding row_id = false ->
  attached (done ++ [row_id]) r = attached done r.
Proof.
  intros Hinvalid. unfold Props.attached.
  destruct (Up.faiss_index r) as [k|]; [|reflexivity].
  rewrite existsb_snoc.
  destruct (existsb (Props.is_id k) done); [reflexivity|]. cbn [orb].
  destruct row_id as [j|]; [|reflexivity]. cbn [Props.is_id].
  destruct (j =? k)%Z eqn:Hjk; [|reflexivity].
  apply Z.eqb_eq in Hjk. subst j.
  unfold Props.has_embedding in Hinvalid.
  now destruct (Up.np_index embeddings k).
Qed.

(** The update of a book with an embedding attaches it. *)
Lemma attached_snoc_valid (done : list (option Z)) (book_id : Z) (e : vector)
  (r : Up.remote_row vector) :
  Up.np_index embeddings book_id = Ok e ->
  (if Up.matches vector book_id (attached done r)
   then Up.Build_remote_row vector (Up.pk (attached done r))
          (Up.faiss_index (attached done r)) (Some e)
   else attached done r)
  = attached (done ++ [Some book_id]) r.
Proof.
  intros He. unfold Up.matches.
  destruct (attached_keys vector embeddings done r) as [Hpk Hkey].
  rewrite Hpk, Hkey. unfold Props.attached.
  destruct (Up.faiss_index r) as [k|] eqn:Hk; [|reflexivity].
  rewrite existsb_snoc. cbn [Props.is_id].
  rewrite (Z.eqb_sym book_id k).
  destruct (k =? book_id)%Z eqn:Hkb.
  - apply Z.eqb_eq in Hkb. subst k. rewrite orb_true_r, He. reflexivity.
  - now rewrite orb_false_r.
Qed.

Lemma upload_row_without_failures (done : list (option Z))
  (t : list (Up.remote_row vector)) (c : Up.counters) (row_id : option Z) :
  Up.upload_row vector embeddings (World (map (attached done) t) [], c) row_id
  = (World (map (attached (done ++ [row_id])) t) [],
     if has_embedding row_id
     then Up.Build_counters (Up.total_updated c + 1) (Up.failed c)
     else Up.Build_counters (Up.total_updated c) (Up.failed c + 1)).
Proof.
  unfold Up.upload_row, Props.has_embedding.
  destruct row_id as [k|]; cbn [bind fst snd].
  - destruct (Up.np_index embeddings k) as [e|x] eqn:He; cbn [bind fst snd].
    + cbn [Up.retry]. unfold Up.execute_update.
      cbn [Up.pending Up.table hd tl]. f_equal. f_equal.
      unfold Up.set_embedding. rewrite map_map. apply map_ext. intros r.
      now apply attached_snoc_valid.
    + f_equal. f_equal. apply map_ext. intros r. symmetry.
      apply attached_snoc_invalid. unfold Props.has_embedding. now rewrite He.
  - f_equal. f_equal. apply map_ext. intros r. symmetry.
    now apply attached_snoc_invalid.
Qed.

(** X14: when no request fails, [main] of
    [upload_embeddings_supabase_api.py] leaves the remote table with the
    vectors attached: every row whose [faiss_index] is the [id] of a book
    with an embedding holds that embedding, every other row is as it was;
    [total_updated] is the number of books with an embedding and [failed]
    the number of the others. *)
Theorem upload_without_failures (ids : list (option Z))
  (t : list (Up.remote_row vector)) :
  Up.main vector ids embeddings (World t [])
  = (World (map (attached ids) t) [],
     Up.Build_counters
       (List.length (filter has_embedding ids))
       (List.length (filter (fun x => negb (has_embedding x)) ids))).
Proof.
  unfold Up.main. rewrite upload_unbatched.
  assert (Hfold : forall l done total failed,
             fold_left (Up.upload_row vector embeddings) l
               (World (map (attached done) t) [],
                Up.Build_counters total failed)
             = (World (map (attached (done ++ l)) t) [],
                Up.Build_counters
                  (total + List.length (filter has_embedding l))
                  (failed
                   + List.length (filter (fun x => negb (has_embedding x)) l)))).
  { induction l as [|x l IH]; intros done total failed.
    - simpl. now rewrite app_nil_r, !Nat.add_0_r.
    - cbn [fold_left]. rewrite upload_row_without_failures.
      cbn [Up.total_updated Up.failed filter].
      destruct (has_embedding x); cbn [negb]; rewrite IH, <- app_assoc;
        cbn [app List.length]; do 2 f_equal; lia. }
  replace t with (map (attached []) t) at 1.
  - rewrite Hfold. reflexivity.
  - rewrite <- (map_id t) at 2. apply map_ext. intros r.
    unfold Props.attached. now destruct (Up.faiss_index r).
Qed.

End FailureFree.

(** ** scripts/upload_embeddings_optimized.py *)

Module UpOpt := upload_embeddings_optimized.

Section Optimized.
Variable vector : Type.
Variable embeddings : list vector.

Local Abbreviation World t o := (Up.Build_world vector t o).
Local Abbreviation tally c := (Up.total_updated c + Up.failed c).
Local Abbreviation attached l := (Props.attached vector l embeddings).
Local Abbreviation has_embedding := (Props.has_embedding vector embeddings).

(** The records that the preparation of a batch makes. *)
Local Abbreviation records_of batch :=
  (flat_map
     (fun row_id : option Z =>
        match row_id with
        | Some k =>
            match Up.np_index embeddings k with
            | Ok e => [(k, e)]
            | Raise _ => []
            end
        | None => []
        end) batch).

Lemma prepare_batch (batch : list (option Z)) (records : list (Z * vector))
  (c : Up.counters) :
  fold_left (UpOpt.prepare vector embeddings) batch (records, c)
  = (records ++ records_of batch,
     Up.Build_counters (Up.total_updated c)
       (Up.failed c
        + List.length (filter (fun x => negb (has_embedding x)) batch))).
Proof.
  set (invalid := fun x : option Z => negb (has_embedding x)).
  revert records c. induction batch as [|x batch IH]; intros records c.
  - simpl. rewrite app_nil_r, Nat.add_0_r. now destruct c.
  - cbn [fold_left flat_map filter]. unfold UpOpt.prepare at 2.
    destruct x as [k|]; cbn [bind].
    + change (invalid (Some k))
        with (negb match Up.np_index embeddings k with
                   | Ok _ => true
                   | Raise _ => false
                   end).
      destruct (Up.np_index embeddings k) as [e|x]; cbn [bind negb].
      * rewrite IH, <- app_assoc. reflexivity.
      * rewrite IH. cbn [Up.total_updated Up.failed List.length app].
        do 2 f_equal. lia.
    + change (invalid None) with true.
      rewrite IH. cbn [Up.total_updated Up.failed List.length app].
      do 2 f_equal. lia.
Qed.

Lemma records_of_length (batch : list (option Z)) :
  List.length (records_of batch)
  + List.length (filter (fun x => negb (has_embedding x)) batch)
  = List.length batch.
Proof.
  set (invalid := fun x : option Z => negb (has_embedding x)).
  induction batch as [|x batch IH]; [reflexivity|].
  cbn [flat_map filter].
  destruct x as [k|].
  - change (invalid (Some k))
      with (negb match Up.np_index embeddings k with
                 | Ok _ => true
                 | Raise _ => false
                 end).
    destruct (Up.np_index embeddings k); cbn [negb app List.length]; lia.
  - change (invalid None) with true. cbn [app List.length]. lia.
Qed.

Lemma retry_tally (records : list (Z * vector))
  (s : Up.world vector * Up.counters) :
  tally (snd (UpOpt.retry vector 3 records s))
  = tally (snd s) + List.length records.
Proof.
  destruct s as [w c]. cbn [UpOpt.retry].
  destruct (UpOpt.send vector records w) as [w1 [u|x1]]; [simpl; lia|].
  cbn [Nat.eqb].
  destruct (UpOpt.send vector records w1) as [w2 [u|x2]]; [simpl; lia|].
  destruct (UpOpt.send vector records w2) as [w3 [u|x3]]; simpl; lia.
Qed.

Lemma upload_batch_tally (s : Up.world vector * Up.counters)
  (batch : list (option Z)) :
  tally (snd (UpOpt.upload_batch vector embeddings s batch))
  = tally (snd s) + List.length batch.
Proof.
  unfold UpOpt.upload_batch. destruct s as [w c].
  rewrite prepare_batch. cbn [app].
  pose proof (records_of_length batch) as Hlen.
  destruct (records_of batch) as [|record records] eqn:Hrecords.
  - simpl in *. lia.
  - rewrite retry_tally. simpl in *. lia.
Qed.

(** X15: whatever the network does, [main] of
    [upload_embeddings_optimized.py] counts every row of [books_df] once,
    as updated or as failed: at the end
    [total_updated + failed = len(books_df)]. *)
Theorem optimized_upload_counts_every_row (ids : list (option Z))
  (t : list (Up.remote_row vector)) (o : list Up.outcome) :
  let c := snd (UpOpt.main vector ids embeddings (World t o)) in
  Up.total_updated c + Up.failed c = List.length ids.
Proof.
  unfold UpOpt.main.
  rewrite (fold_left_map (UpOpt.upload_batch vector embeddings)
             (fun i => Up.iloc ids i (i + UpOpt.batch_size))).
  assert (Hfold : forall batches s,
             tally (snd (fold_left (UpOpt.upload_batch vector embeddings)
                           batches s))
             = tally (snd s) + List.length (List.concat batches)).
  { induction batches as [|batch batches IH]; intros s; [simpl; lia|].
    cbn [fold_left List.concat]. rewrite IH, upload_batch_tally, length_app.
    lia. }
  cbv zeta. rewrite Hfold, batches_cover by (unfold UpOpt.batch_size; lia).
  reflexivity.
Qed.

Lemma send_without_failures (records : list (Z * vector))
  (t : list (Up.remote_row vector)) :
  UpOpt.send vector records (World t [])
  = (World
       (fold_left (fun t record =>
                     Up.set_embedding vector (fst record) (snd record) t)
          records t) [],
     Ok tt).
Proof.
  revert t. induction records as [|record records IH]; intros t;
    [reflexivity|].
  cbn [UpOpt.send fold_left]. unfold Up.execute_update.
  cbn [Up.pending Up.table hd tl]. apply IH.
Qed.

Lemma records_attach (batch done : list (option Z))
  (t : list (Up.remote_row vector)) :
  fold_left (fun t record =>
               Up.set_embedding vector (fst record) (snd record) t)
    (records_of batch) (map (attached done) t)
  = map (attached (done ++ batch)) t.
Proof.
  revert done. induction batch as [|x batch IH]; intros done.
  - simpl. now rewrite app_nil_r.
  - replace (done ++ x :: batch) with ((done ++ [x]) ++ batch)
      by (now rewrite <- app_assoc).
    rewrite <- IH. cbn [flat_map].
    destruct x as [k|].
    + destruct (Up.np_index embeddings k) as [e|x] eqn:He.
      * cbn [app fold_left fst snd]. f_equal.
        unfold Up.set_embedding. rewrite map_map. apply map_ext. intros r.
        now apply attached_snoc_valid.
      * cbn [app]. f_equal. apply map_ext. intros r. symmetry.
        apply attached_snoc_invalid. unfold Props.has_embedding.
        now rewrite He.
    + cbn [app]. f_equal. apply map_ext. intros r. symmetry.
      now apply attached_snoc_invalid.
Qed.

Lemma upload_batch_without_failures (done batch : list (option Z))
  (t : list (Up.remote_row vector)) (c : Up.counters) :
  UpOpt.upload_batch vector embeddings (World (map (attached done) t) [], c)
    batch
  = (World (map (attached (done ++ batch)) t) [],
     Up.Build_counters
       (Up.total_updated c + List.length (filter has_embedding batch))
       (Up.failed c
        + List.length (filter (fun x => negb (has_embedding x)) batch))).
Proof.
  unfold UpOpt.upload_batch. rewrite prepare_batch. cbn [app].
  pose proof (records_attach batch done t) as Htable.
  assert (Hvalid : List.length (records_of batch)
                   = List.length (filter has_embedding batch)).
  { pose proof (records_of_length batch) as Hlen.
    pose proof (filter_length has_embedding batch) as Hsplit. lia. }
  destruct (records_of batch) as [|record records] eqn:Hrecords.
  - cbn [fold_left] in Htable. rewrite Htable, <- Hvalid.
    cbn [List.length]. now rewrite Nat.add_0_r.
  - cbn [UpOpt.retry]. rewrite send_without_failures, Htable, <- Hvalid.
    reflexivity.
Qed.

(** X16: when no request fails, [main] of
    [upload_embeddings_optimized.py] leaves the remote table with the
    vectors attached and counts the books with an embedding as updated and
    the others as failed: the table and the counters that
    [upload_embeddings_supabase_api.py] gives in that case. *)
Theorem optimized_upload_without_failures (ids : list (option Z))
  (t : list (Up.remote_row vector)) :
  UpOpt.main vector ids embeddings (World t [])
  = (World (map (attached ids) t) [],
     Up.Build_counters
       (List.length (filter has_embedding ids))
       (List.length (filter (fun x => negb (has_embedding x)) ids))).
Proof.
  unfold UpOpt.main.
  rewrite (fold_left_map (UpOpt.upload_batch vector embeddings)
             (fun i => Up.iloc ids i (i + UpOpt.batch_size))).
  assert (Hfold : forall batches done total failed,
             fold_left (UpOpt.upload_batch vector embeddings) batches
               (World (map (attached done) t) [],
                Up.Build_counters total failed)
             = (World (map (attached (done ++ List.concat batches)) t) [],
                Up.Build_counters
                  (total
                   + List.length (filter has_embedding (List.concat batches)))
                  (failed
                   + List.length
                       (filter (fun x => negb (has_embedding x))
                          (List.concat batches))))).
  { induction batches as [|batch batches IH]; intros done total failed.
    - simpl. now rewrite app_nil_r, !Nat.add_0_r.
    - cbn [fold_left List.concat].
      rewrite upload_batch_without_failures. cbn [Up.total_updated Up.failed].
      rewrite IH, <- app_assoc, !filter_app, !length_app.
      do 2 f_equal; lia. }
  replace t with (map (attached []) t) at 1.
  - rewrite Hfold, batches_cover by (unfold UpOpt.batch_size; lia).
    reflexivity.
  - rewrite <- (map_id t) at 2. apply map_ext. intros r.
    unfold Props.attached. now destruct (Up.faiss_index r).
Qed.

End Optimized.

(** ** scripts/generate_embeddings.py *)

Lemma fold_left_snoc {X Y : Type} (f : X -> Y) (l : list X) (acc : list Y) :
  fold_left (fun acc x => acc ++ [f x]) l acc = acc ++ map f l.
Proof.
  revert acc. induction l as [|x l IH]; intros acc; simpl.
  - now rewrite app_nil_r.
  - now rewrite IH, <- app_assoc.
Qed.

(** X17: when the model encodes a batch text by text, [main] of
    [generate_embeddings.py] returns one vector per text, in the order of
    the texts: cutting the texts into batches of 32 and stacking the
    results loses, repeats and moves nothing. With no text at all
    [np.vstack] raises [ValueError]. *)
Theorem embeddings_follow_texts (vector : Type)
  (encode : list string -> list vector) (f : string -> vector)
  (embedding_texts : list string) :
  (forall batch, encode batch = map f batch) ->
  generate_embeddings.main vector encode embedding_texts
  = match embedding_texts with
    | [] => Raise ValueError
    | _ :: _ => Ok (map f embedding_texts)
    end.
Proof.
  intros Hencode. unfold generate_embeddings.main.
  rewrite (fold_left_snoc
             (fun i => encode (Up.iloc embedding_texts i
                                 (i + generate_embeddings.batch_size)))).
  cbn [app].
  destruct embedding_texts as [|text texts] eqn:Htexts; [reflexivity|].
  rewrite <- Htexts.
  assert (Hstack :
            List.concat
              (map (fun i => encode (Up.iloc embedding_texts i
                                       (i + generate_embeddings.batch_size)))
                 (Up.range 0 (List.length embedding_texts)
                    generate_embeddings.batch_size))
            = map f embedding_texts).
  { transitivity
      (map f
         (List.concat
            (map (fun i => Up.iloc embedding_texts i
                             (i + generate_embeddings.batch_size))
               (Up.range 0 (List.length embedding_texts)
                  generate_embeddings.batch_size)))).
    - rewrite concat_map, map_map. f_equal. apply map_ext. intros i.
      apply Hencode.
    - f_equal. apply batches_cover.
      unfold generate_embeddings.batch_size. lia. }
  unfold generate_embeddings.vstack.
  destruct (map _ (Up.range _ _ _)) as [|a arrays] eqn:Harrays.
  - rewrite Htexts in Harrays. discriminate.
  - now rewrite Hstack.
Qed.

Lemma embeddings_follow_texts_witness :
  generate_embeddings.main nat (map String.length) ["a"; "bb"; ""]
  = Ok [1; 2; 0].
Proof.
  exact (embeddings_follow_texts nat (map String.length) String.length
           ["a"; "bb"; ""] (fun batch => eq_refl)).
Defined.

(** ** scripts/build_faiss_index.py *)

Lemma enumerated_ids (l : list final_row) (start : nat) :
  map id l = seq start (List.length l) ->
  Forall (fun ir : nat * final_row => fst ir = id (snd ir))
    (combine (seq start (List.length l)) l).
Proof.
  revert start. induction l as [|r l IH]; intros start Hids; simpl.
  - constructor.
  - simpl in Hids. injection Hids as Hr Hl.
    constructor; [now symmetry|]. now apply IH.
Qed.

Lemma enumerated_columns {X : Type} (l : list X) (start : nat) :
  map snd (combine (seq start (List.length l)) l) = l
  /\ map fst (combine (seq start (List.length l)) l)
     = seq start (List.length l).
Proof.
  revert start. induction l as [|x l IH]; intros start; simpl.
  - now split.
  - destruct (IH (S start)) as [-> ->]. now split.
Qed.

(** X18: on the output of [main] of [preprocess_data.py] (the [id] column
    survives the CSV file as it is), the metadata that
    [build_faiss_index.py] writes has one entry per record, in order, and
    in every entry [faiss_index], the position of the vector in the index,
    is the [id] of the record. *)
Theorem metadata_positions_are_ids `{PyEnv} (books_df : list book)
  (reviews_df : list review) (out : list final_row) :
  preprocess_data.main books_df reviews_df = Ok out ->
  let metadata := build_faiss_index.metadata out in
  map build_faiss_index.md_id metadata = map id out
  /\ map build_faiss_index.md_faiss_index metadata = seq 0 (List.length out)
  /\ Forall
       (fun m => build_faiss_index.md_faiss_index m = build_faiss_index.md_id m)
       metadata.
Proof.
  intros Hmain.
  destruct (main_assemble _ _ _ Hmain) as (rows & _ & ->).
  set (out := finalize (filter keep rows)).
  assert (Hids : map id out = seq 0 (List.length out)).
  { unfold out. now rewrite finalize_ids, finalize_length. }
  cbv zeta. unfold build_faiss_index.metadata. rewrite !map_map.
  cbn [build_faiss_index.md_id build_faiss_index.md_faiss_index].
  pose proof (enumerated_ids out 0 Hids) as Hall.
  split; [|split].
  - rewrite <- (map_map snd id).
    now destruct (enumerated_columns out 0) as [-> _].
  - etransitivity; [|exact (proj2 (enumerated_columns out 0))].
    now apply map_ext.
  - apply Forall_map. eapply Forall_impl; [|exact Hall].
    intros ir Hir. exact Hir.
Qed.

Lemma metadata_positions_are_ids_witness :
  let metadata := build_faiss_index.metadata scenario_output in
  map build_faiss_index.md_id metadata = map id scenario_output
  /\ map build_faiss_index.md_faiss_index metadata
     = seq 0 (List.length scenario_output)
  /\ Forall
       (fun m => build_faiss_index.md_faiss_index m = build_faiss_index.md_id m)
       metadata.
Proof.
  assert (Hmain : preprocess_data.main scenario_books scenario_reviews
                  = Ok scenario_output) by reflexivity.
  exact (metadata_positions_are_ids scenario_books scenario_reviews
           scenario_output Hmain).
Defined.

(** ** scripts/populate_filter_fields.py *)

Module Fields := populate_filter_fields.

Lemma match_year_group (before : bool) (s m : string) :
  Fields.match_year before s = Some m ->
  exists rest, s = (m ++ rest)%string /\ String.length m = 4.
Proof.
  unfold Fields.match_year.
  destruct s as [|d1 [|d2 [|d3 [|d4 rest]]]]; try discriminate.
  match goal with
  | |- (if ?b then _ else _) = _ -> _ => destruct b; [|discriminate]
  end.
  intros Hm. inversion Hm. now exists rest.
Qed.

Lemma search_year_group (s : string) (before : bool) (m : string) :
  Fields.search_year before s = Some m ->
  exists pre post, s = (pre ++ m ++ post)%string /\ String.length m = 4.
Proof.
  revert before. induction s as [|c s IH]; intros before;
    cbn [Fields.search_year].
  - discriminate.
  - destruct (Fields.match_year before (String c s)) as [m'|] eqn:Hm.
    + intros Hs. inversion Hs. subst m'.
      destruct (match_year_group _ _ _ Hm) as (rest & Hrest & Hlen).
      exists "", rest. now split.
    + intros Hs. destruct (IH _ Hs) as (pre & post & -> & Hlen).
      now exists (String c pre), post.
Qed.

(** X19: [extract_year] returns a year only for a string that is not
    empty, and then a year between 1800 and 2030 that is written in the
    string with four digits. *)
Theorem extract_year_sound (published_date : scalar) (year : Z) :
  Fields.extract_year published_date = Some year ->
  (1800 <= year <= 2030)%Z
  /\ exists s pre group post,
       published_date = SStr s
       /\ s <> ""
       /\ s = (pre ++ group ++ post)%string
       /\ String.length group = 4
       /\ int group = Some year.
Proof.
  unfold Fields.extract_year.
  destruct published_date as [|s|r]; try discriminate.
  destruct s as [|c s]; [discriminate|].
  destruct (Fields.search_year true (String c s)) as [group|] eqn:Hs;
    [|discriminate].
  destruct (int group) as [y|] eqn:Hy; [|discriminate].
  destruct ((1800 <=? y)%Z && (y <=? 2030)%Z) eqn:Hrange; [|discriminate].
  intros Hyear. injection Hyear as <-.
  apply andb_true_iff in Hrange as [Hlo Hhi].
  apply Z.leb_le in Hlo, Hhi. split; [lia|].
  destruct (search_year_group _ _ _ Hs) as (pre & post & Hsplit & Hlen).
  exists (String c s), pre, group, post. repeat split; try assumption.
  discriminate.
Qed.

Lemma extract_year_sound_witness :
  (1800 <= 1999 <= 2030)%Z
  /\ exists s pre group post,
       SStr "May 1999, 2nd ed." = SStr s
       /\ s <> ""
       /\ s = (pre ++ group ++ post)%string
       /\ String.length group = 4
       /\ int group = Some 1999%Z.
Proof.
  exact (extract_year_sound (SStr "May 1999, 2nd ed.") 1999 eq_refl).
Defined.

(** The digits of the years 1800 to 2030 are what the pattern asks for. *)
Lemma year_text_matches (y : Z) :
  (1800 <= y <= 2030)%Z ->
  (let d1 := Props.digit_char (y / 1000) in
   let d2 := Props.digit_char ((y / 100) mod 10) in
   let d3 := Props.digit_char ((y / 10) mod 10) in
   let d4 := Props.digit_char (y mod 10) in
   ((Ascii.eqb d1 "1" && (Ascii.eqb d2 "8" || Ascii.eqb d2 "9"))
    || (Ascii.eqb d1 "2" && Ascii.eqb d2 "0"))
   && Fields.is_digit d3 && Fields.is_digit d4
   && match int (Props.year_text y) with
      | Some z => (z =? y)%Z
      | None => false
      end) = true.
Proof.
  intros Hy.
  assert (Hall : forallb
            (fun n =>
               let y := Z.of_nat n in
               let d1 := Props.digit_char (y / 1000) in
               let d2 := Props.digit_char ((y / 100) mod 10) in
               let d3 := Props.digit_char ((y / 10) mod 10) in
               let d4 := Props.digit_char (y mod 10) in
               ((Ascii.eqb d1 "1" && (Ascii.eqb d2 "8" || Ascii.eqb d2 "9"))
                || (Ascii.eqb d1 "2" && Ascii.eqb d2 "0"))
               && Fields.is_digit d3 && Fields.is_digit d4
               && match int (Props.year_text y) with
                  | Some z => (z =? y)%Z
                  | None => false
                  end)
            (seq 1800 231) = true) by (vm_compute; reflexivity).
  rewrite forallb_forall in Hall.
  specialize (Hall (Z.to_nat y)).
  rewrite Z2Nat.id in Hall by lia.
  apply Hall. apply in_seq. lia.
Qed.

(** X20: a date that starts with the four digits of a year between 1800
    and 2030, followed by nothing or by a character that is no letter,
    digit or underscore (as in "1996-05-01"), gets that year. *)
Theorem extract_year_of_leading_year (y : Z) (rest : string) :
  (1800 <= y <= 2030)%Z ->
  match rest with
  | EmptyString => True
  | String c _ => Fields.is_word_char c = false
  end ->
  Fields.extract_year (SStr (Props.year_text y ++ rest)) = Some y.
Proof.
  intros Hy Hrest.
  pose proof (year_text_matches y Hy) as Hm. cbv zeta in Hm.
  apply andb_true_iff in Hm as [Hm Hint].
  destruct (int (Props.year_text y)) as [z|] eqn:Hz; [|discriminate].
  apply Z.eqb_eq in Hint. subst z.
  unfold Fields.extract_year, Props.year_text in *.
  cbn [append]. cbn [Fields.search_year Fields.match_year].
  cbn [andb]. rewrite Hm.
  assert (Hafter : match rest with
                   | EmptyString => true
                   | String c _ => negb (Fields.is_word_char c)
                   end = true).
  { destruct rest as [|c rest]; [reflexivity|]. now rewrite Hrest. }
  rewrite Hafter. cbn [andb]. rewrite Hz.
  replace ((1800 <=? y)%Z && (y <=? 2030)%Z) with true; [reflexivity|].
  symmetry. apply andb_true_iff. split; apply Z.leb_le; lia.
Qed.

Lemma extract_year_of_leading_year_witness :
  Fields.extract_year (SStr "1996-05-01") = Some 1996%Z.
Proof.
  apply (extract_year_of_leading_year 1996 "-05-01"); [lia|reflexivity].
Defined.

(** *** Substrings *)

Lemma prefix_empty (s : string) : String.prefix "" s = true.
Proof. now destruct s. Qed.

Lemma prefix_app (n h post : string) :
  String.prefix n h = true -> String.prefix n (h ++ post) = true.
Proof.
  revert n. induction h as [|c h IH]; intros n; simpl.
  - destruct n; [intros _; apply prefix_empty|discriminate].
  - destruct n as [|a n]; [reflexivity|].
    destruct (ascii_dec a c); [apply IH|discriminate].
Qed.

Lemma contains_str_app_r (n h post : string) :
  Fields.contains_str n h = true -> Fields.contains_str n (h ++ post) = true.
Proof.
  induction h as [|c h IH]; cbn [Fields.contains_str append].
  - rewrite orb_false_r. destruct n; [|discriminate].
    intros _. destruct post; reflexivity.
  - intros Hc. apply orb_true_iff in Hc as [Hp|Hc].
    + apply orb_true_iff. left.
      exact (prefix_app n (String c h) post Hp).
    + apply orb_true_iff. right. now apply IH.
Qed.

Lemma contains_str_app_l (n pre h : string) :
  Fields.contains_str n h = true -> Fields.contains_str n (pre ++ h) = true.
Proof.
  intros Hc. induction pre as [|c pre IH]; [exact Hc|].
  cbn [append Fields.contains_str]. rewrite IH. apply orb_true_r.
Qed.

Lemma lower_app (s t : string) :
  Fields.lower (s ++ t) = (Fields.lower s ++ Fields.lower t)%string.
Proof. induction s as [|c s IH]; simpl; [reflexivity|now rewrite IH]. Qed.

Lemma join_in (sep x : string) (l : list string) :
  In x l -> exists pre post, join sep l = (pre ++ x ++ post)%string.
Proof.
  induction l as [|y l IH]; [contradiction|].
  intros [->|Hin].
  - destruct l as [|z l].
    + exists "", "". simpl. now rewrite append_empty_r.
    + exists "", (sep ++ join sep (z :: l))%string. reflexivity.
  - destruct (IH Hin) as (pre & post & Hjoin).
    destruct l as [|z l]; [contradiction|].
    exists (y ++ sep ++ pre)%string, post.
    change (join sep (y :: z :: l))
      with (y ++ sep ++ join sep (z :: l))%string.
    now rewrite Hjoin, !append_assoc.
Qed.

(** X21: [determine_reading_level] puts the beginner keywords first: a
    list in which some category holds one of them, in any letter case, is
    ['beginner'], whatever else the list holds. *)
Theorem reading_level_beginner_first (categories : list scalar)
  (cat : scalar) (keyword : string) :
  In cat categories ->
  In keyword Fields.BEGINNER_CATEGORIES ->
  Fields.contains_str (Fields.lower keyword) (Fields.lower (Fields.str cat))
  = true ->
  Fields.determine_reading_level (PList categories) = "beginner".
Proof.
  intros Hcat Hkw Hin.
  destruct categories as [|c0 l0]; [contradiction|].
  unfold Fields.determine_reading_level.
  replace (existsb _ Fields.BEGINNER_CATEGORIES) with true; [reflexivity|].
  symmetry. apply existsb_exists. exists keyword. split; [exact Hkw|].
  destruct (join_in " " (Fields.str cat) (map Fields.str (c0 :: l0)))
    as (pre & post & ->); [now apply in_map|].
  rewrite !lower_app.
  now apply contains_str_app_l, contains_str_app_r.
Qed.

Lemma reading_level_beginner_first_witness :
  Fields.determine_reading_level
    (PList [SStr "Philosophy"; SStr "JUVENILE FICTION / General"])
  = "beginner".
Proof.
  apply (reading_level_beginner_first _ (SStr "JUVENILE FICTION / General")
           "Juvenile Fiction").
  - right. now left.
  - right. now left.
  - reflexivity.
Defined.

(** X22: [estimate_page_count] returns the default 320 or one of the
    averages of the table, so always between 24 and 450 pages; it is the
    default for anything that is not a list and for a list without a
    string. *)
Theorem page_count_bounds (categories : pyval) :
  (24 <= Fields.estimate_page_count categories <= 450)%Z
  /\ (Fields.estimate_page_count categories = Fields.DEFAULT_PAGE_COUNT
      \/ In (Fields.estimate_page_count categories)
           (map snd Fields.CATEGORY_PAGE_COUNTS))
  /\ (match categories with
      | PList l => Forall (fun c => forall s, c <> SStr s) l
      | PScalar _ => True
      end ->
      Fields.estimate_page_count categories = Fields.DEFAULT_PAGE_COUNT).
Proof.
  assert (Htable : Forall (fun p => (24 <= p <= 450)%Z)
                     (map snd Fields.CATEGORY_PAGE_COUNTS)).
  { repeat constructor; simpl; lia. }
  assert (Hfirst : forall l p,
             Fields.first_page_count l = Some p ->
             In p (map snd Fields.CATEGORY_PAGE_COUNTS)
             /\ exists s, In (SStr s) l).
  { induction l as [|c l IH]; intros p; [discriminate|].
    cbn [Fields.first_page_count].
    destruct c as [|s|r];
      try (intros Hp; destruct (IH p Hp) as [Hin [s' Hs']];
           split; [exact Hin|exists s'; now right]).
    unfold Fields.page_count_of.
    destruct (find _ Fields.CATEGORY_PAGE_COUNTS) as [kv|] eqn:Hfind;
      cbn [option_map].
    - intros Hp. inversion Hp. apply find_some in Hfind as [Hkv _].
      split; [now apply in_map|]. exists s. now left.
    - intros Hp. destruct (IH p Hp) as [Hin [s' Hs']].
      split; [exact Hin|exists s'; now right]. }
  assert (Hsource :
            Fields.estimate_page_count categories = Fields.DEFAULT_PAGE_COUNT
            \/ In (Fields.estimate_page_count categories)
                 (map snd Fields.CATEGORY_PAGE_COUNTS)).
  { unfold Fields.estimate_page_count.
    destruct categories as [x|[|c l]]; [now left..|].
    destruct (Fields.first_page_count (c :: l)) as [p|] eqn:Hp; [|now left].
    right. now apply (Hfirst (c :: l)). }
  split; [|split; [exact Hsource|]].
  - destruct Hsource as [->|Hin]; [unfold Fields.DEFAULT_PAGE_COUNT; lia|].
    rewrite Forall_forall in Htable. now apply Htable.
  - unfold Fields.estimate_page_count.
    destruct categories as [x|[|c l]]; [reflexivity..|].
    intros Hnone.
    destruct (Fields.first_page_count (c :: l)) as [p|] eqn:Hp;
      [|reflexivity].
    destruct (Hfirst _ _ Hp) as [_ [s Hs]].
    rewrite Forall_forall in Hnone. now destruct (Hnone _ Hs s).
Qed.

(** ** The batch uploader and the remote rows *)

Section OptimizedEffects.
Variable vector : Type.
Variable embeddings : list vector.
Variable ids : list (option Z).

Local Abbreviation World t o := (Up.Build_world vector t o).
Local Abbreviation related r r' :=
  (Up.pk r' = Up.pk r
   /\ Up.faiss_index r' = Up.faiss_index r
   /\ (Up.embedding r' = Up.embedding r
       \/ exists k e,
            Up.faiss_index r = Some k
            /\ In (Some k) ids
            /\ Up.np_index embeddings k = Ok e
            /\ Up.embedding r' = Some e)).

(** A record made from one of the books. *)
Local Abbreviation listed record :=
  (In (Some (fst record)) ids
   /\ Up.np_index embeddings (fst record) = Ok (snd record)).

Lemma related_send (records : list (Z * vector))
  (t : list (Up.remote_row vector)) (w : Up.world vector) :
  Forall (fun record => listed record) records ->
  Forall2 (fun r r' => related r r') t (Up.table w) ->
  Forall2 (fun r r' => related r r') t
    (Up.table (fst (UpOpt.send vector records w))).
Proof.
  intros Hrecords. revert w.
  induction Hrecords as [|record records [Hin He] _ IH]; intros w Hrel;
    [exact Hrel|].
  cbn [UpOpt.send].
  pose proof (related_execute_update vector embeddings ids (fst record)
                (snd record) t w Hin He Hrel) as Hstep.
  destruct (Up.execute_update vector (fst record) (snd record) w)
    as [w1 [u|x]]; [|exact Hstep].
  apply IH. exact Hstep.
Qed.

Lemma related_retry_batch (attempts : nat) (records : list (Z * vector))
  (t : list (Up.remote_row vector)) (s : Up.world vector * Up.counters) :
  Forall (fun record => listed record) records ->
  Forall2 (fun r r' => related r r') t (Up.table (fst s)) ->
  Forall2 (fun r r' => related r r') t
    (Up.table (fst (UpOpt.retry vector attempts records s))).
Proof.
  intros Hrecords. revert s.
  induction attempts as [|n IH]; intros [w c] Hrel; [exact Hrel|].
  cbn [UpOpt.retry].
  pose proof (related_send records t w Hrecords Hrel) as Hstep.
  destruct (UpOpt.send vector records w) as [w1 [u|x]]; [exact Hstep|].
  apply IH. exact Hstep.
Qed.

Lemma records_listed (batch : list (option Z)) :
  incl batch ids ->
  Forall (fun record => listed record)
    (flat_map
       (fun row_id : option Z =>
          match row_id with
          | Some k =>
              match Up.np_index embeddings k with
              | Ok e => [(k, e)]
              | Raise _ => []
              end
          | None => []
          end) batch).
Proof.
  induction batch as [|x batch IH]; intros Hincl; [constructor|].
  cbn [flat_map]. apply Forall_app. split.
  - destruct x as [k|]; [|constructor].
    destruct (Up.np_index embeddings k) as [e|x] eqn:He; [|constructor].
    constructor; [|constructor]. split; [|exact He].
    apply Hincl. now left.
  - apply IH. intros y Hy. apply Hincl. now right.
Qed.

Lemma related_upload_batch (batch : list (option Z))
  (t : list (Up.remote_row vector)) (s : Up.world vector * Up.counters) :
  incl batch ids ->
  Forall2 (fun r r' => related r r') t (Up.table (fst s)) ->
  Forall2 (fun r r' => related r r') t
    (Up.table (fst (UpOpt.upload_batch vector embeddings s batch))).
Proof.
  intros Hincl Hrel. unfold UpOpt.upload_batch. destruct s as [w c].
  rewrite prepare_batch. cbn [app].
  pose proof (records_listed batch Hincl) as Hrecords.
  destruct (flat_map _ batch) as [|record records]; [exact Hrel|].
  now apply related_retry_batch.
Qed.

Lemma firstn_In {X : Type} (n : nat) (l : list X) (x : X) :
  In x (firstn n l) -> In x l.
Proof.
  revert l. induction n as [|n IH]; intros [|y l]; simpl; try contradiction.
  intros [->|Hx]; [now left|right; now apply IH].
Qed.

Lemma skipn_In {X : Type} (n : nat) (l : list X) (x : X) :
  In x (skipn n l) -> In x l.
Proof.
  revert l. induction n as [|n IH]; intros [|y l]; simpl; try easy.
  intros Hx. right. now apply IH.
Qed.

Lemma iloc_incl {X : Type} (l : list X) (i j : nat) : incl (Up.iloc l i j) l.
Proof.
  unfold Up.iloc. intros x Hx.
  apply (skipn_In i). now apply (firstn_In (j - i)).
Qed.

Lemma related_fixes_attached (t t' : list (Up.remote_row vector)) :
  Forall2 (fun r r' => related r r')
    (map (Props.attached vector ids embeddings) t) t' ->
  t' = map (Props.attached vector ids embeddings) t.
Proof.
  revert t'. induction t as [|r t IH]; intros t' Hrel; simpl in Hrel.
  - now inversion Hrel.
  - inversion Hrel as [|r1 r' t1 t'' (Hpk & Hkey & Hemb) Hrest]; subst.
    simpl. f_equal; [|now apply IH].
    apply remote_row_ext; [exact Hpk|exact Hkey|].
    destruct Hemb as [Hsame|(k & e & Hk & Hin & He & Hset)]; [exact Hsame|].
    rewrite Hset.
    destruct (attached_keys vector embeddings ids r) as [_ Hkeys].
    rewrite Hkeys in Hk.
    unfold Props.attached. rewrite Hk.
    replace (existsb (Props.is_id k) ids) with true.
    + now rewrite He.
    + symmetry. apply existsb_exists. exists (Some k).
      split; [exact Hin|]. simpl. apply Z.eqb_refl.
Qed.

Lemma related_optimized_upload (t : list (Up.remote_row vector))
  (o : list Up.outcome) :
  Forall2 (fun r r' => related r r') t
    (Up.table (fst (UpOpt.main vector ids embeddings (World t o)))).
Proof.
  unfold UpOpt.main.
  assert (Hfold : forall starts s,
             Forall2 (fun r r' => related r r') t (Up.table (fst s)) ->
             Forall2 (fun r r' => related r r') t
               (Up.table
                  (fst (fold_left
                          (fun s i =>
                             UpOpt.upload_batch vector embeddings s
                               (Up.iloc ids i (i + UpOpt.batch_size)))
                          starts s)))).
  { induction starts as [|i starts IH]; intros s Hrel; [exact Hrel|].
    simpl. apply IH. apply related_upload_batch; [apply iloc_incl|exact Hrel]. }
  apply Hfold. apply related_refl.
Qed.

(** X23: whatever the network does, a run of
    [upload_embeddings_optimized.py], which sends a whole batch again
    when one of its requests fails, changes no primary key and no
    [faiss_index], and gives a row no other vector than the embedding that
    its [faiss_index] designates among the books; and it leaves a table in
    which the vectors are attached as it is. *)
Theorem optimized_upload_is_safe (t : list (Up.remote_row vector))
  (o : list Up.outcome) :
  Forall2
    (fun r r' =>
       Up.pk r' = Up.pk r
       /\ Up.faiss_index r' = Up.faiss_index r
       /\ (Up.embedding r' = Up.embedding r
           \/ exists k e,
                Up.faiss_index r = Some k
                /\ In (Some k) ids
                /\ Up.np_index embeddings k = Ok e
                /\ Up.embedding r' = Some e))
    t (Up.table (fst (UpOpt.main vector ids embeddings (World t o))))
  /\ Up.table
       (fst (UpOpt.main vector ids embeddings
               (World (map (Props.attached vector ids embeddings) t) o)))
     = map (Props.attached vector ids embeddings) t.
Proof.
  split; [apply related_optimized_upload|].
  apply related_fixes_attached. apply related_optimized_upload.
Qed.

End OptimizedEffects.

(** ** The grouped table of the vectorized script *)


